(** * seller-apis: stock and price synchronisation for two marketplaces

    A shallow embedding of [seller.py] (Ozon) and [market.py] (Yandex Market):
    the reconciliation functions [create_stocks] / [create_prices], the price
    normaliser [price_conversion], the batcher [divide], the upload loops
    [upload_stocks] / [upload_prices], the paginated catalogue fetch
    [get_offer_ids] and the two [main] functions.

    Conventions.
    - A Python [str] is a Rocq [string] holding its UTF-8 bytes.  The
      characters the code looks for ('.', '0'..'9', '>') are ASCII and never
      occur inside a multi-byte UTF-8 sequence, so byte-wise processing agrees
      with code-point-wise processing.
    - [int] on a string follows CPython: characters outside ASCII that are
      white space or decimal digits are first turned into a space or the
      ASCII digit (the Unicode 14.0 tables of CPython 3.11), then an optional
      sign, digits with single underscores between them and surrounding ASCII
      white space are read.  The interpreter's configurable limit on the
      number of digits is left out.
    - A spreadsheet cell is a [pyval]: [None], an [int] or a [str].  Cells
      holding floats are outside the model.
    - A row of the spreadsheet (a Python [dict]) is a [gmap string pyval].
    - Functions that mutate their arguments or talk to the network live in a
      state-and-exception monad [M]. *)

From Stdlib Require Import ZArith Lia Ascii String.
From stdpp Require Import base numbers list gmap strings pretty.

Local Open Scope Z_scope.

(** ** Python values and builtins *)

Module Py.

Inductive pyexc : Type :=
  | ValueError
  | TypeError
  | AttributeError
  | IndexError
  | HTTPError
  | ConnectionError
  | ReadTimeout.

Inductive pyval : Type :=
  | VNone
  | VInt (n : Z)
  | VStr (s : string).

#[global] Instance pyexc_eq_dec : EqDecision pyexc.
Proof. solve_decision. Defined.

#[global] Instance pyval_eq_dec : EqDecision pyval.
Proof. solve_decision. Defined.

(** A row of the inventory file: [dict] with string keys. *)
Abbreviation dict := (gmap string pyval).

(** [d.get(k)]: the value under [k], [None] when the key is absent. *)
Definition dict_get (d : dict) (k : string) : pyval :=
  default VNone (d !! k).

(** [str(v)]. *)
Definition str (v : pyval) : string :=
  match v with
  | VNone => "None"
  | VInt n => pretty n
  | VStr s => s
  end.

(** *** [int(...)] *)

Definition is_digit (c : ascii) : bool :=
  let n := nat_of_ascii c in ((48 <=? n) && (n <=? 57))%nat.

Definition digit_value (c : ascii) : Z :=
  Z.of_nat (nat_of_ascii c) - 48.

(** [Py_ISSPACE]: the ASCII white space that [int] skips at both ends of a
    literal: tab, newline, vertical tab, form feed, carriage return, space. *)
Definition is_space (c : ascii) : bool :=
  let n := nat_of_ascii c in
  (((9 <=? n) && (n <=? 13)) || (n =? 32))%nat.

Fixpoint all_space (s : string) : bool :=
  match s with
  | EmptyString => true
  | String c s' => is_space c && all_space s'
  end.

Fixpoint lstrip (s : string) : string :=
  match s with
  | EmptyString => EmptyString
  | String c s' => if is_space c then lstrip s' else s
  end.

(** The digit part of a base-10 literal: digits, single underscores allowed
    between digits, then only trailing white space.  [prev] tells whether the
    previous character was a digit. *)
Fixpoint int_digits (s : string) (acc : Z) (prev : bool) : option Z :=
  match s with
  | EmptyString => if prev then Some acc else None
  | String c s' =>
      if is_digit c then int_digits s' (10 * acc + digit_value c) true
      else if prev && bool_decide (c = "_"%char) then int_digits s' acc false
      else if prev && all_space s then Some acc
      else None
  end.

(** [PyLong_FromString] in base 10, on an ASCII buffer: surrounding white
    space is dropped, an optional sign is read, the rest is the digit part.
    [None] stands for the [ValueError] "invalid literal for int() with base
    10". *)
Definition int_of_ascii (s : string) : option Z :=
  match lstrip s with
  | String "-" r => Z.opp <$> int_digits r 0 false
  | String "+" r => int_digits r 0 false
  | t => int_digits t 0 false
  end.

(** The decimal digits outside ASCII, as Unicode 14.0 (the tables of
    CPython 3.11) has them: runs of code points given by their first code
    point and their length.  The digit a code point of a run stands for is
    its offset in the run modulo 10. *)
Definition decimal_runs : list (N * N) :=
  [
    (1632, 10); (1776, 10); (1984, 10); (2406, 10); (2534, 10); (2662, 10);
    (2790, 10); (2918, 10); (3046, 10); (3174, 10); (3302, 10); (3430, 10);
    (3558, 10); (3664, 10); (3792, 10); (3872, 10); (4160, 10); (4240, 10);
    (6112, 10); (6160, 10); (6470, 10); (6608, 10); (6784, 10); (6800, 10);
    (6992, 10); (7088, 10); (7232, 10); (7248, 10); (42528, 10); (43216, 10);
    (43264, 10); (43472, 10); (43504, 10); (43600, 10); (44016, 10); (65296, 10);
    (66720, 10); (68912, 10); (69734, 10); (69872, 10); (69942, 10); (70096, 10);
    (70384, 10); (70736, 10); (70864, 10); (71248, 10); (71360, 10); (71472, 10);
    (71904, 10); (72016, 10); (72784, 10); (73040, 10); (73120, 10); (92768, 10);
    (92864, 10); (93008, 10); (120782, 50); (123200, 10); (123632, 10); (125264, 10);
    (130032, 10)
  ]%N.

Definition unicode_decimal (cp : N) : option N :=
  match List.find (λ run, (run.1 <=? cp)%N && (cp <? run.1 + run.2)%N)
                  decimal_runs with
  | Some run => Some ((cp - run.1) mod 10)%N
  | None => None
  end.

(** The white space outside ASCII ([Py_UNICODE_ISSPACE]). *)
Definition unicode_spaces : list N :=
  [
    133; 160; 5760; 8192; 8193; 8194; 8195; 8196;
    8197; 8198; 8199; 8200; 8201; 8202; 8232; 8233;
    8239; 8287; 12288
  ]%N.

Definition unicode_space (cp : N) : bool :=
  existsb (N.eqb cp) unicode_spaces.

(** What a character outside ASCII becomes before [int] parses: a space for
    white space, the ASCII digit for a decimal digit, and '?', which no
    literal contains, for anything else. *)
Definition ascii_of_code_point (cp : N) : ascii :=
  if (cp <? 128)%N then "?"%char
  else if unicode_space cp then " "%char
  else match unicode_decimal cp with
       | Some d => ascii_of_N (48 + d)
       | None => "?"%char
       end.

(** [_PyUnicode_TransformDecimalAndSpaceToASCII], on the UTF-8 bytes of the
    string: ASCII characters are kept, every other character is replaced as
    [ascii_of_code_point] says.  [need] counts the continuation bytes still
    awaited and [acc] holds the bits read so far; bytes that are not the
    UTF-8 form of a character (no [str] has them) give '?'. *)
Fixpoint to_ascii_go (s : string) (need : nat) (acc : N) : string :=
  match s with
  | EmptyString => match need with O => EmptyString | S _ => "?" end
  | String c s' =>
      let b := N_of_ascii c in
      if (b <? 128)%N then
        match need with
        | O => String c (to_ascii_go s' 0 0)
        | S _ => String "?" (String c (to_ascii_go s' 0 0))
        end
      else if (b <? 192)%N then
        match need with
        | O => String "?" (to_ascii_go s' 0 0)
        | S O => String (ascii_of_code_point (acc * 64 + (b - 128)))
                   (to_ascii_go s' 0 0)
        | S (S need') => to_ascii_go s' (S need') (acc * 64 + (b - 128))
        end
      else
        let rest :=
          if (b <? 224)%N then to_ascii_go s' 1 (b - 192)
          else if (b <? 240)%N then to_ascii_go s' 2 (b - 224)
          else if (b <? 248)%N then to_ascii_go s' 3 (b - 240)
          else String "?" (to_ascii_go s' 0 0) in
        match need with
        | O => rest
        | S _ => String "?" rest
        end
  end.

Definition to_ascii (s : string) : string := to_ascii_go s 0 0.

(** [int(s)] for a [str] [s]. *)
Definition int_of_str (s : string) : option Z :=
  int_of_ascii (to_ascii s).

(** [int(v)]. *)
Definition int (v : pyval) : pyexc + Z :=
  match v with
  | VNone => inl TypeError
  | VInt n => inr n
  | VStr s => match int_of_str s with
              | Some n => inr n
              | None => inl ValueError
              end
  end.

(** *** [str.split] and [re.sub] as [price_conversion] uses them *)

(** [s.split(sep)] for a one-character separator: the pieces between
    occurrences of [sep], in order; never the empty list. *)
Fixpoint split (sep : ascii) (s : string) : list string :=
  match s with
  | EmptyString => [EmptyString]
  | String c s' =>
      if bool_decide (c = sep) then EmptyString :: split sep s'
      else match split sep s' with
           | [] => [String c EmptyString]
           | p :: ps => String c p :: ps
           end
  end.

(** [re.sub("[^0-9]", "", s)]: every character outside '0'..'9' is dropped. *)
Fixpoint sub_non_digits (s : string) : string :=
  match s with
  | EmptyString => EmptyString
  | String c s' =>
      if is_digit c then String c (sub_non_digits s') else sub_non_digits s'
  end.

(** *** Lists *)

(** [x in l]. *)
Definition contains `{EqDecision A} (x : A) (l : list A) : bool :=
  bool_decide (x ∈ l).

(** [l.remove(x)]: drops the first element equal to [x]; [None] stands for
    the [ValueError] raised when there is none. *)
Fixpoint remove `{EqDecision A} (x : A) (l : list A) : option (list A) :=
  match l with
  | [] => None
  | y :: l' => if decide (x = y) then Some l' else cons y <$> remove x l'
  end.

(** [list(range(0, stop, step))] for [stop >= 0].  A zero step raises
    [ValueError]; a negative step gives the empty range. *)
Definition range0 (stop : nat) (step : Z) : pyexc + list nat :=
  if decide (step = 0) then inl ValueError
  else if decide (step < 0) then inr []
  else
    let n := Z.to_nat step in
    inr (List.map (fun k => (k * n)%nat) (seq 0 ((stop + n - 1) / n)%nat)).

(** [l[i : i + n]] for [0 <= i] and [0 < n]. *)
Definition slice {A} (l : list A) (i n : nat) : list A :=
  take n (drop i l).

End Py.

Import Py.

(** ** The state-and-exception monad

    [M S A]: a computation over a mutable state [S] that either returns an [A]
    or raises; the state reached is kept in both cases, as in Python, where an
    exception does not undo earlier mutations. *)

Definition M (S A : Type) : Type := S → (pyexc + A) * S.

#[global] Instance M_ret {S} : MRet (M S) := λ A a s, (inr a, s).

#[global] Instance M_bind {S} : MBind (M S) := λ A B f m s,
  match m s with
  | (inl e, s') => (inl e, s')
  | (inr a, s') => f a s'
  end.

Definition raise {S A} (e : pyexc) : M S A := λ s, (inl e, s).

(** An expression that may raise but touches no state. *)
Definition lift {S A} (r : pyexc + A) : M S A := λ s, (r, s).

Definition gets {S A} (f : S → A) : M S A := λ s, (inr (f s), s).

(** [for x in l: acc = body(acc, x)], where [acc] stands for the local
    variables the loop body updates.  The list iterated over is not touched by
    any loop body in this program, so the loop runs over its value at entry. *)
Fixpoint for_in {S A B} (l : list A) (acc : B) (body : B → A → M S B)
    : M S B :=
  match l with
  | [] => mret acc
  | x :: l' => acc' ← body acc x; for_in l' acc' body
  end.

(** ** What both marketplace modules share *)

(** The two mutable arguments of [create_stocks] / [create_prices]: the
    caller's list of offer ids and the caller's list of inventory rows. *)
Record store : Type := Store {
  offer_ids : list string;
  watch_remnants : list dict;
}.

(** [offer_ids.remove(x)] on the caller's list. *)
Definition offer_ids_remove (x : string) : M store unit := λ st,
  match remove x (offer_ids st) with
  | Some l => (inr tt, Store l (watch_remnants st))
  | None => (inl ValueError, st)
  end.

(** The quantity rule, written out identically in both [create_stocks]
    (seller.py lines 178-184, market.py lines 153-159):
<<
    count = str(watch.get("Количество"))
    if count == ">10":   stock = 100
    elif count == "1":   stock = 0
    else:                stock = int(watch.get("Количество"))
>> *)
Definition normalize_quantity (quantity : pyval) : pyexc + Z :=
  let count := str quantity in
  if decide (count = ">10") then inr 100
  else if decide (count = "1") then inr 0
  else int quantity.

(** The code of a row as the program reads it: [str(watch.get("Код"))]. *)
Definition code_of (watch : dict) : string := str (dict_get watch "Код").

(** What the network answers to one request. *)
Record response : Type := Response {
  status_code : Z;
  body_is_json : bool;
}.

(** [response.raise_for_status()]. *)
Definition raise_for_status {S} (r : response) : M S unit :=
  if decide (400 ≤ status_code r < 600) then raise HTTPError else mret tt.

(** [response.json()]; the decoded body itself is never used by a caller. *)
Definition json {S} (r : response) : M S unit :=
  if body_is_json r then mret tt else raise ValueError.

(** The remote side: the requests sent so far, oldest first.  A [server]
    decides the outcome of a request from the history and the request; a
    transport failure is an exception, anything else a [response]. *)
Definition server (Req : Type) : Type := list Req → Req → pyexc + response.

(** [requests.post(url, json=payload)] / [requests.put(...)]: the request
    reaches the log whether or not it is answered. *)
Definition send {Req} (srv : server Req) (req : Req) : M (list Req) response :=
  λ log, (srv log req, log ++ [req]).

(** ** seller.py *)

Module Seller.

Record stock_record : Type := StockRecord {
  offer_id : string;
  stock : Z;
}.

Record price_record : Type := PriceRecord {
  auto_action_enabled : string;
  currency_code : string;
  price_offer_id : string;
  old_price : string;
  price : string;
}.

Inductive request : Type :=
  | ImportStocks (stocks : list stock_record)
  | ImportPrices (prices : list price_record).

Definition update_stocks (srv : server request) (stocks : list stock_record)
    : M (list request) unit :=
  response ← send srv (ImportStocks stocks);
  _ ← raise_for_status response;
  json response.

Definition update_price (srv : server request) (prices : list price_record)
    : M (list request) unit :=
  response ← send srv (ImportPrices prices);
  _ ← raise_for_status response;
  json response.

Definition create_stocks : M store (list stock_record) :=
  rows ← gets watch_remnants;
  stocks ← for_in rows [] (λ stocks watch,
    ids ← gets offer_ids;
    if contains (code_of watch) ids then
      stock ← lift (normalize_quantity (dict_get watch "Количество"));
      _ ← offer_ids_remove (code_of watch);
      mret (stocks ++ [StockRecord (code_of watch) stock])
    else mret stocks);
  ids ← gets offer_ids;
  for_in ids stocks (λ stocks offer_id,
    mret (stocks ++ [StockRecord offer_id 0])).

Definition price_conversion (price : pyval) : pyexc + string :=
  match price with
  | VStr s =>
      match split "." s !! 0%nat with
      | Some before => inr (sub_non_digits before)
      | None => inl IndexError
      end
  | _ => inl AttributeError
  end.

Definition create_prices : M store (list price_record) :=
  rows ← gets watch_remnants;
  for_in rows [] (λ prices watch,
    ids ← gets offer_ids;
    if contains (code_of watch) ids then
      p ← lift (price_conversion (dict_get watch "Цена"));
      mret (prices ++ [PriceRecord "UNKNOWN" "RUB" (code_of watch) "0" p])
    else mret prices).

(** [list(divide(lst, n))]: the generator run to its end. *)
Definition divide {A} (lst : list A) (n : Z) : pyexc + list (list A) :=
  match range0 (length lst) n with
  | inl e => inl e
  | inr starts => inr (List.map (λ i, slice lst i (Z.to_nat n)) starts)
  end.

(** [upload_stocks]; [get_offer_ids] is the paginated catalogue fetch, left
    abstract as a computation against the remote side. *)
Definition upload_stocks (srv : server request)
    (get_offer_ids : M (list request) (list string)) (rows : list dict)
    : M (list request) (list stock_record * list stock_record) :=
  ids ← get_offer_ids;
  stocks ← lift (create_stocks (Store ids rows)).1;
  batches ← lift (divide stocks 100);
  _ ← for_in batches tt (λ _ some_stock, update_stocks srv some_stock);
  let not_empty := List.filter (λ r, negb (stock r =? 0)) stocks in
  mret (not_empty, stocks).

End Seller.

(** ** market.py *)

Module Market.

Record stock_item : Type := StockItem {
  count : Z;
  type : string;
  updatedAt : string;
}.

Record stock_record : Type := StockRecord {
  sku : string;
  warehouseId : string;
  items : list stock_item;
}.

Record price_value : Type := PriceValue {
  value : Z;
  currencyId : string;
}.

Record price_record : Type := PriceRecord {
  id : string;
  price : price_value;
}.

Inductive request : Type :=
  | PutStocks (stocks : list stock_record)
  | PostPrices (prices : list price_record).

Definition update_stocks (srv : server request) (stocks : list stock_record)
    : M (list request) unit :=
  response ← send srv (PutStocks stocks);
  _ ← raise_for_status response;
  json response.

Definition update_price (srv : server request) (prices : list price_record)
    : M (list request) unit :=
  response ← send srv (PostPrices prices);
  _ ← raise_for_status response;
  json response.

(** [date] is the text of [datetime.utcnow()] taken when the call starts. *)
Definition create_stocks (date : string) (warehouse_id : string)
    : M store (list stock_record) :=
  rows ← gets watch_remnants;
  stocks ← for_in rows [] (λ stocks watch,
    ids ← gets offer_ids;
    if contains (code_of watch) ids then
      stock ← lift (normalize_quantity (dict_get watch "Количество"));
      _ ← offer_ids_remove (code_of watch);
      mret (stocks ++
        [StockRecord (code_of watch) warehouse_id [StockItem stock "FIT" date]])
    else mret stocks);
  ids ← gets offer_ids;
  for_in ids stocks (λ stocks offer_id,
    mret (stocks ++
      [StockRecord offer_id warehouse_id [StockItem 0 "FIT" date]])).

Definition create_prices : M store (list price_record) :=
  rows ← gets watch_remnants;
  for_in rows [] (λ prices watch,
    ids ← gets offer_ids;
    if contains (code_of watch) ids then
      digits ← lift (Seller.price_conversion (dict_get watch "Цена"));
      v ← lift (int (VStr digits));
      mret (prices ++ [PriceRecord (code_of watch) (PriceValue v "RUR")])
    else mret prices).

(** [stock.get("items")[0].get("count")]. *)
Definition first_count (r : stock_record) : pyexc + Z :=
  match items r !! 0%nat with
  | Some item => inr (count item)
  | None => inl IndexError
  end.

Definition upload_stocks (srv : server request)
    (get_offer_ids : M (list request) (list string)) (date : string)
    (rows : list dict) (warehouse_id : string)
    : M (list request) (list stock_record * list stock_record) :=
  ids ← get_offer_ids;
  stocks ← lift (create_stocks date warehouse_id (Store ids rows)).1;
  batches ← lift (Seller.divide stocks 2000);
  _ ← for_in batches tt (λ _ some_stock, update_stocks srv some_stock);
  not_empty ← for_in stocks [] (λ kept r,
    c ← lift (first_count r);
    mret (if decide (c ≠ 0) then kept ++ [r] else kept));
  mret (not_empty, stocks).

End Market.

(** ** Definitions the statements use *)

(** Whether every character of a string passes a test. *)
Fixpoint all_chars (p : ascii → bool) (s : string) : bool :=
  match s with
  | EmptyString => true
  | String c s' => p c && all_chars p s'
  end.

(** The characters an integer literal is made of: digits, white space, the
    underscore and the two signs.  A token with any other character is not
    numeric. *)
Definition int_char (c : ascii) : bool :=
  is_digit c || is_space c || bool_decide (c = "_"%char) ||
  bool_decide (c = "+"%char) || bool_decide (c = "-"%char).

(** Whether some character of a string passes a test. *)
Fixpoint some_char (p : ascii → bool) (s : string) : bool :=
  match s with
  | EmptyString => false
  | String c s' => p c || some_char p s'
  end.

(** The characters of ASCII: those written as one byte. *)
Definition is_ascii (c : ascii) : bool := (N_of_ascii c <? 128)%N.

(** An ASCII character that no integer literal contains. *)
Definition not_int_char (c : ascii) : bool :=
  is_ascii c && negb (int_char c).

(** The string with the given UTF-8 bytes, for characters that are hard to
    read in a literal. *)
Definition of_bytes (bs : list Z) : string :=
  foldr (λ b, String (ascii_of_N (Z.to_N b))) EmptyString bs.

(** The test "is not a dot", for the part of a price before its first dot. *)
Definition not_dot (c : ascii) : bool := negb (bool_decide (c = "."%char)).

(** The quantity cell of a row, as the program reads it. *)
Definition quantity_of (watch : dict) : pyval := dict_get watch "Количество".

(** The first loop of [create_stocks] with the record layout taken away: the
    (code, stock) pairs it emits, in order, and the offer ids it leaves in the
    caller's list.  Used to reason about both marketplaces at once; the
    lemmas [Seller_create_stocks_run] and [Market_create_stocks_run] tie it to
    the two functions. *)
Fixpoint reconcile_stocks (rows : list dict) (ids : list string)
    : (pyexc + list (string * Z)) * list string :=
  match rows with
  | [] => (inr [], ids)
  | watch :: rows' =>
      if contains (code_of watch) ids then
        match normalize_quantity (quantity_of watch) with
        | inl e => (inl e, ids)
        | inr stock =>
            match remove (code_of watch) ids with
            | None => (inl ValueError, ids)
            | Some ids' =>
                match reconcile_stocks rows' ids' with
                | (inl e, ids'') => (inl e, ids'')
                | (inr ps, ids'') => (inr ((code_of watch, stock) :: ps), ids'')
                end
            end
        end
      else reconcile_stocks rows' ids
  end.

(** The rows for which the first loop of [create_stocks] enters its [if]: a
    row whose code is on the offer-id list when the loop comes to it.  Each
    such row takes one occurrence of its code off the list, so a later row
    with the same code is matched only if the code was listed again. *)
Fixpoint matched_rows (rows : list dict) (ids : list string) : list dict :=
  match rows with
  | [] => []
  | watch :: rows' =>
      if contains (code_of watch) ids then
        watch :: matched_rows rows' (default ids (remove (code_of watch) ids))
      else matched_rows rows' ids
  end.

(** Running the reconciliation functions on given arguments: the result (or
    the exception) together with the two argument lists as the call leaves
    them. *)
Definition run {A} (f : M store A) (rows : list dict) (ids : list string)
    : (pyexc + A) * store :=
  f (Store ids rows).

(** The loop of [create_prices] with the record layout taken away: [f] builds
    the record of a row (or raises), rows whose code is not on the list are
    skipped. *)
Fixpoint collect_prices {R} (f : dict → pyexc + R) (rows : list dict)
    (ids : list string) : pyexc + list R :=
  match rows with
  | [] => inr []
  | watch :: rows' =>
      if contains (code_of watch) ids then
        match f watch with
        | inl e => inl e
        | inr r =>
            match collect_prices f rows' ids with
            | inl e => inl e
            | inr rs => inr (r :: rs)
            end
        end
      else collect_prices f rows' ids
  end.

(** The price cell of a row, as the program reads it. *)
Definition price_of (watch : dict) : pyval := dict_get watch "Цена".

(** The record [Seller.create_prices] builds for a row. *)
Definition seller_price (watch : dict) : pyexc + Seller.price_record :=
  match Seller.price_conversion (price_of watch) with
  | inl e => inl e
  | inr p => inr (Seller.PriceRecord "UNKNOWN" "RUB" (code_of watch) "0" p)
  end.

(** The record [Market.create_prices] builds for a row. *)
Definition market_price (watch : dict) : pyexc + Market.price_record :=
  match Seller.price_conversion (price_of watch) with
  | inl e => inl e
  | inr digits =>
      match int (VStr digits) with
      | inl e => inl e
      | inr v => inr (Market.PriceRecord (code_of watch) (Market.PriceValue v "RUR"))
      end
  end.

(** The end-to-end scenario of the specification. *)
Definition row (code quantity price : pyval) : dict :=
  {[ "Код" := code; "Количество" := quantity; "Цена" := price ]}.

Definition scenario_rows : list dict :=
  [ row (VStr "A1") (VStr ">10") (VStr "500.00");
    row (VStr "A2") (VStr "1") (VStr "1200.50") ].

Definition scenario_ids : list string := ["A1"; "A2"; "A3"].

(** Inputs for the cases the scenario leaves out: a negative quantity, an
    unreadable quantity, an id listed twice. *)
Definition negative_rows : list dict :=
  [row (VStr "A1") (VStr "-5") (VStr "10")].

Definition unreadable_rows : list dict :=
  [row (VStr "A1") (VStr "много") (VStr "10")].

(** An inventory whose third row is the first listed row with an unreadable
    quantity; the second row is unreadable too but not on the list. *)
Definition late_unreadable_rows : list dict :=
  [ row (VStr "A1") (VStr "7") (VStr "10");
    row (VStr "B9") (VStr "нет") (VStr "10");
    row (VStr "A2") (VStr "много") (VStr "10");
    row (VStr "A3") (VStr "4") (VStr "10") ].

Definition plain_rows : list dict :=
  [row (VStr "A1") (VStr "5") (VStr "10")].

Definition repeated_ids : list string := ["A1"; "A1"].

(** A server that answers every request with status 200 and a JSON body,
    except request number [k] (counted from 0), which meets [bad]. *)
Definition failing_server {Req} (k : nat) (bad : pyexc + response)
    : server Req :=
  λ log _, if decide (length log = k) then bad else inr (Response 200 true).

(** A catalogue of [n] offer ids, "0", "1", ... *)
Definition many_ids (n : nat) : list string := (λ i, pretty i) <$> seq 0 n.

(** ** The rest of the two files: catalogue fetch, price upload, [main] *)

(** Calling a function declared [async def] only builds a coroutine object;
    its body runs when the object is awaited.  A coroutine is kept as the
    suspended body. *)
Definition coroutine (S A : Type) : Type := M S A.

Definition call_async {S A} (body : M S A) : M S (coroutine S A) := mret body.

(** What the [except] clauses of [main] print. *)
Inductive printed : Type :=
  | TimeoutLine
  | ConnectionLine (error : pyexc)
  | Error2Line (error : pyexc).

(** The three handlers of both [main] functions, in their order:
    [ReadTimeout], [ConnectionError], [Exception]. *)
Definition handle {S} (body : M S unit) : S → option printed * S := λ s,
  match body s with
  | (inr _, s') => (None, s')
  | (inl ReadTimeout, s') => (Some TimeoutLine, s')
  | (inl ConnectionError, s') => (Some (ConnectionLine ConnectionError), s')
  | (inl e, s') => (Some (Error2Line e), s')
  end.

(** An answer that neither [raise_for_status] nor [json] objects to. *)
Definition accepted (answer : pyexc + response) : Prop :=
  ∃ r, answer = inr r ∧ ¬ (400 ≤ status_code r < 600) ∧ body_is_json r = true.

Module SellerApp.

(** One item of the product list; [offer_id] is the only key read. *)
Record product : Type := Product {
  product_offer_id : string;
}.

(** The ["result"] object of one answer to [get_product_list]. *)
Record product_page : Type := ProductPage {
  items : list product;
  total : Z;
  last_id : string;
}.

(** [get_product_list] as the program sees it: what call number [n] (counted
    from 0) with a given [last_id] returns or raises.  Credentials are fixed
    for a run and left out. *)
Definition get_product_list : Type := nat → string → pyexc + product_page.

(** The [while True] loop of [get_offer_ids]; [None] when [fuel] iterations
    were not enough to reach the [break]. *)
Fixpoint get_offer_ids_loop (fuel : nat) (fetch : get_product_list)
    (calls : nat) (last_id_ : string) (product_list : list product)
    : option (pyexc + list product) :=
  match fuel with
  | O => None
  | S fuel' =>
      match fetch calls last_id_ with
      | inl e => Some (inl e)
      | inr some_prod =>
          let product_list' := product_list ++ items some_prod in
          if decide (total some_prod = Z.of_nat (length product_list'))
          then Some (inr product_list')
          else get_offer_ids_loop fuel' fetch (S calls) (last_id some_prod)
                 product_list'
      end
  end.

Definition get_offer_ids (fuel : nat) (fetch : get_product_list)
    : option (pyexc + list string) :=
  match get_offer_ids_loop fuel fetch 0 "" [] with
  | None => None
  | Some (inl e) => Some (inl e)
  | Some (inr product_list) => Some (inr (product_offer_id <$> product_list))
  end.

Definition upload_prices (srv : server Seller.request)
    (get_offer_ids : M (list Seller.request) (list string)) (rows : list dict)
    : M (list Seller.request) (list Seller.price_record) :=
  ids ← get_offer_ids;
  prices ← lift (Seller.create_prices (Store ids rows)).1;
  batches ← lift (Seller.divide prices 1000);
  _ ← for_in batches tt (λ _ some_price, Seller.update_price srv some_price);
  mret prices.

(** The [try] block of [main].  [fetched] and [downloaded] are what
    [get_offer_ids] and [download_stock] return or raise.  The list bound to
    [offer_ids] is one object: [create_prices] receives it as [create_stocks]
    left it. *)
Definition main_body (srv : server Seller.request)
    (fetched : pyexc + list string) (downloaded : pyexc + list dict)
    : M (list Seller.request) unit :=
  offer_ids ← lift fetched;
  watch_remnants ← lift downloaded;
  let after_stocks := Seller.create_stocks (Store offer_ids watch_remnants) in
  stocks ← lift after_stocks.1;
  batches ← lift (Seller.divide stocks 100);
  _ ← for_in batches tt (λ _ some_stock, Seller.update_stocks srv some_stock);
  let after_prices := Seller.create_prices after_stocks.2 in
  prices ← lift after_prices.1;
  batches ← lift (Seller.divide prices 900);
  for_in batches tt (λ _ some_price, Seller.update_price srv some_price).

Definition main (srv : server Seller.request)
    (fetched : pyexc + list string) (downloaded : pyexc + list dict)
    : list Seller.request → option printed * list Seller.request :=
  handle (main_body srv fetched downloaded).

End SellerApp.

Module MarketApp.

(** One entry of [offerMappingEntries]; [offer.shopSku] is all that is
    read. *)
Record mapping_entry : Type := MappingEntry {
  shopSku : string;
}.

(** The ["result"] object of one answer to [get_product_list];
    [nextPageToken] may be missing. *)
Record mapping_page : Type := MappingPage {
  offerMappingEntries : list mapping_entry;
  nextPageToken : option string;
}.

Definition get_product_list : Type := nat → string → pyexc + mapping_page.

(** [not page] for a page token: missing or empty. *)
Definition falsy (page : option string) : bool :=
  match page with
  | None => true
  | Some token => bool_decide (token = "")
  end.

(** The page token passed to the next call.  A missing token would be passed
    as [None]; the loop has ended by then. *)
Definition token_text (page : option string) : string := default "" page.

Fixpoint get_offer_ids_loop (fuel : nat) (fetch : get_product_list)
    (calls : nat) (page : string) (product_list : list mapping_entry)
    : option (pyexc + list mapping_entry) :=
  match fuel with
  | O => None
  | S fuel' =>
      match fetch calls page with
      | inl e => Some (inl e)
      | inr some_prod =>
          let product_list' := product_list ++ offerMappingEntries some_prod in
          if falsy (nextPageToken some_prod) then Some (inr product_list')
          else get_offer_ids_loop fuel' fetch (S calls)
                 (token_text (nextPageToken some_prod)) product_list'
      end
  end.

Definition get_offer_ids (fuel : nat) (fetch : get_product_list)
    : option (pyexc + list string) :=
  match get_offer_ids_loop fuel fetch 0 "" [] with
  | None => None
  | Some (inl e) => Some (inl e)
  | Some (inr product_list) => Some (inr (shopSku <$> product_list))
  end.

Definition upload_prices (srv : server Market.request)
    (get_offer_ids : M (list Market.request) (list string)) (rows : list dict)
    : M (list Market.request) (list Market.price_record) :=
  ids ← get_offer_ids;
  prices ← lift (Market.create_prices (Store ids rows)).1;
  batches ← lift (Seller.divide prices 500);
  _ ← for_in batches tt (λ _ some_prices, Market.update_price srv some_prices);
  mret prices.

(** One half of the [try] block of [main]: the stock upload of one campaign
    followed by the call of [upload_prices], which is declared [async def] and
    is not awaited. *)
Definition campaign (srv : server Market.request)
    (fetched : pyexc + list string) (date warehouse_id : string)
    (watch_remnants : list dict) : M (list Market.request) unit :=
  offer_ids ← lift fetched;
  stocks ← lift (Market.create_stocks date warehouse_id
                   (Store offer_ids watch_remnants)).1;
  batches ← lift (Seller.divide stocks 2000);
  _ ← for_in batches tt (λ _ some_stock, Market.update_stocks srv some_stock);
  _ ← call_async (upload_prices srv (lift fetched) watch_remnants);
  mret tt.

(** [main]: [download_stock] is called before the [try], so what it raises
    leaves [main]; the two campaigns (FBS, then DBS) run inside the [try]. *)
Definition main (srv_fbs srv_dbs : server Market.request)
    (fetched_fbs fetched_dbs : pyexc + list string)
    (date_fbs date_dbs warehouse_fbs_id warehouse_dbs_id : string)
    (downloaded : pyexc + list dict)
    : list Market.request → (pyexc + option printed) * list Market.request :=
  λ log,
    match downloaded with
    | inl e => (inl e, log)
    | inr watch_remnants =>
        let '(line, log') :=
          handle (_ ← campaign srv_fbs fetched_fbs date_fbs warehouse_fbs_id
                        watch_remnants;
                  campaign srv_dbs fetched_dbs date_dbs warehouse_dbs_id
                    watch_remnants) log in
        (inr line, log')
    end.

End MarketApp.

(** The [last_id] that call number [i] of [get_product_list] carries when the
    calls before it were answered with [pages]. *)
Definition seller_cursor (pages : list SellerApp.product_page) (i : nat)
    : string :=
  match i with
  | O => ""
  | S j => default "" (SellerApp.last_id <$> pages !! j)
  end.

(** The page token that call number [i] carries, likewise. *)
Definition market_cursor (pages : list MarketApp.mapping_page) (i : nat)
    : string :=
  match i with
  | O => ""
  | S j =>
      default "" ((λ p, MarketApp.token_text (MarketApp.nextPageToken p))
                    <$> pages !! j)
  end.

(** A catalogue of two pages for the checks below. *)
Definition two_pages : list SellerApp.product_page :=
  [ SellerApp.ProductPage [SellerApp.Product "A1"; SellerApp.Product "A2"] 3 "c1";
    SellerApp.ProductPage [SellerApp.Product "A3"] 3 "c2" ].

Definition serve_pages (pages : list SellerApp.product_page)
    : SellerApp.get_product_list :=
  λ i _, match pages !! i with
         | Some p => inr p
         | None => inl HTTPError
         end.

Definition two_mapping_pages : list MarketApp.mapping_page :=
  [ MarketApp.MappingPage [MarketApp.MappingEntry "A1"] (Some "t1");
    MarketApp.MappingPage [MarketApp.MappingEntry "A2"] None ].

Definition serve_mapping_pages (pages : list MarketApp.mapping_page)
    : MarketApp.get_product_list :=
  λ i _, match pages !! i with
         | Some p => inr p
         | None => inl HTTPError
         end.

(** ** Small checks of the model against the interpreter *)

Example scenario_stocks :
  run Seller.create_stocks scenario_rows scenario_ids =
  (inr [Seller.StockRecord "A1" 100; Seller.StockRecord "A2" 0;
        Seller.StockRecord "A3" 0],
   Store ["A3"] scenario_rows).
Proof. vm_compute. reflexivity. Qed.

Example scenario_prices :
  run Seller.create_prices scenario_rows scenario_ids =
  (inr [Seller.PriceRecord "UNKNOWN" "RUB" "A1" "0" "500";
        Seller.PriceRecord "UNKNOWN" "RUB" "A2" "0" "1200"],
   Store scenario_ids scenario_rows).
Proof. vm_compute. reflexivity. Qed.

(** [seller.main] calls [create_stocks] and then [create_prices] on the very
    same list object: the second call sees the list the first has shortened. *)
Example main_prices_after_stocks :
  (stocks ← Seller.create_stocks;
   prices ← Seller.create_prices;
   mret (stocks, prices)) (Store scenario_ids scenario_rows) =
  (inr ([Seller.StockRecord "A1" 100; Seller.StockRecord "A2" 0;
         Seller.StockRecord "A3" 0], []),
   Store ["A3"] scenario_rows).
Proof. vm_compute. reflexivity. Qed.

Example int_of_str_samples :
  int_of_str "7" = Some 7 ∧ int_of_str " 42 " = Some 42 ∧
  int_of_str "-5" = Some (-5) ∧ int_of_str "+1_000" = Some 1000 ∧
  int_of_str "007" = Some 7 ∧ int_of_str "" = None ∧
  int_of_str "1__0" = None ∧ int_of_str "1_" = None ∧
  int_of_str "_1" = None ∧ int_of_str ">9" = None ∧
  int_of_str "- 5" = None ∧ int_of_str "5.0" = None ∧
  int_of_str "1 2" = None.
Proof. repeat split; reflexivity. Qed.

(** [int] outside the printable ASCII range: the Arabic-Indic digit three
    (bytes 217 163) alone, signed, joined to four (217 164) by an underscore,
    followed by an ASCII digit, and in 123; a no-break space (194 160) in
    front; the next-line character (194 133), the line separator (226 128
    168) and the ideographic space (227 128 128) around a digit; the
    fullwidth five (239 188 149) and mathematical digits beyond the basic
    plane (240 157 159 ...).  The separators chr(28) and chr(31), the
    zero-width space (226 128 139), the superscript two (194 178) and a
    letter with an accent (195 169) are no part of a literal. *)
Example int_of_str_unicode_samples :
  int_of_str (of_bytes [217; 163]) = Some 3 ∧
  int_of_str (of_bytes [45; 217; 163]) = Some (-3) ∧
  int_of_str (of_bytes [217; 163; 95; 217; 164]) = Some 34 ∧
  int_of_str (of_bytes [217; 163; 51]) = Some 33 ∧
  int_of_str (of_bytes [217; 161; 217; 162; 217; 163]) = Some 123 ∧
  int_of_str (of_bytes [194; 160; 53]) = Some 5 ∧
  int_of_str (of_bytes [56; 194; 133]) = Some 8 ∧
  int_of_str (of_bytes [226; 128; 168; 56]) = Some 8 ∧
  int_of_str (of_bytes [56; 227; 128; 128]) = Some 8 ∧
  int_of_str (of_bytes [239; 188; 149]) = Some 5 ∧
  int_of_str (of_bytes [240; 157; 159; 142; 240; 157; 159; 169]) = Some 7 ∧
  int_of_str (of_bytes [240; 157; 159; 151]) = Some 9 ∧
  int_of_str (of_bytes [32; 56; 11]) = Some 8 ∧
  int_of_str (of_bytes [56; 31]) = None ∧
  int_of_str (of_bytes [28; 56]) = None ∧
  int_of_str (of_bytes [226; 128; 139; 56]) = None ∧
  int_of_str (of_bytes [194; 178]) = None ∧
  int_of_str (of_bytes [195; 169]) = None.
Proof. vm_compute. repeat split; reflexivity. Qed.

Example str_samples :
  str (VInt 0) = "0" ∧ str (VInt (-15)) = "-15" ∧ str (VInt 1) = "1" ∧
  str VNone = "None" ∧ str (VStr ">10") = ">10".
Proof. repeat split; vm_compute; reflexivity. Qed.

Example split_samples :
  split "." "1 234.56" = ["1 234"; "56"] ∧ split "." "999" = ["999"] ∧
  split "." "" = [""] ∧ split "." "a.b.c" = ["a"; "b"; "c"] ∧
  split "." ".5" = [""; "5"] ∧ split "." "5." = ["5"; ""].
Proof. repeat split; reflexivity. Qed.

Example remove_samples :
  remove 2 [1; 2; 3; 2] = Some [1; 3; 2] ∧ remove 5 [1; 2] = None.
Proof. split; reflexivity. Qed.

Example divide_samples :
  Seller.divide [1; 2; 3; 4; 5] 2 = inr [[1; 2]; [3; 4]; [5]] ∧
  Seller.divide [1; 2; 3; 4] 2 = inr [[1; 2]; [3; 4]] ∧
  Seller.divide [1; 2] 5 = inr [[1; 2]] ∧
  Seller.divide (@nil Z) 3 = inr [] ∧
  Seller.divide [1; 2] 0 = inl ValueError ∧
  Seller.divide [1; 2] (-1) = inr [].
Proof. repeat split; reflexivity. Qed.

(** ** Lemmas on the builtins *)

Section list_builtins.
Context `{EqDecision A}.
Implicit Types (x : A) (l : list A).

Lemma filter_ext_in (P Q : A → Prop)
    `{!∀ x, Decision (P x), !∀ x, Decision (Q x)} l :
  (∀ x, x ∈ l → P x ↔ Q x) → filter P l = filter Q l.
Proof.
  induction l as [|y l IH]; intros HPQ; [done|].
  rewrite !filter_cons, IH by (intros; apply HPQ; by right).
  apply decide_ext, HPQ. by left.
Qed.

Lemma filter_all (P : A → Prop) `{!∀ x, Decision (P x)} l :
  (∀ x, x ∈ l → P x) → filter P l = l.
Proof.
  induction l as [|y l IH]; intros HP; [done|].
  rewrite filter_cons_True by (apply HP; by left).
  f_equal. apply IH. intros; apply HP; by right.
Qed.

Lemma contains_true x l : contains x l = true ↔ x ∈ l.
Proof. unfold contains. by rewrite bool_decide_eq_true. Qed.

Lemma contains_false x l : contains x l = false ↔ x ∉ l.
Proof. unfold contains. by rewrite bool_decide_eq_false. Qed.

Lemma remove_is_Some x l : x ∈ l → is_Some (remove x l).
Proof.
  induction l as [|y l IH]; simpl.
  - by intros ?%elem_of_nil.
  - intros Hin. destruct (decide (x = y)) as [->|Hne]; [by eexists|].
    apply elem_of_cons in Hin as [?|Hin]; [done|].
    destruct (IH Hin) as [l' ->]. by eexists.
Qed.

Lemma remove_None x l : remove x l = None ↔ x ∉ l.
Proof.
  split.
  - intros Hr Hin. apply remove_is_Some in Hin as [l' Hl']. congruence.
  - induction l as [|y l IH]; simpl; [done|].
    intros Hnin. apply not_elem_of_cons in Hnin as [Hne Hnin].
    destruct (decide (x = y)); [done|]. by rewrite IH.
Qed.

(** Removing puts exactly one occurrence aside. *)
Lemma remove_Permutation x l l' : remove x l = Some l' → l ≡ₚ x :: l'.
Proof.
  revert l'. induction l as [|y l IH]; simpl; intros l' Hr; [done|].
  destruct (decide (x = y)) as [->|Hne].
  - by injection Hr as ->.
  - destruct (remove x l) as [l0|] eqn:E; simplify_eq/=.
    rewrite (IH l0 eq_refl). apply Permutation_swap.
Qed.

(** On a duplicate-free list, removing is filtering. *)
Lemma remove_NoDup x l l' :
  NoDup l → remove x l = Some l' → l' = filter (λ y, y ≠ x) l.
Proof.
  revert l'. induction l as [|y l IH]; simpl; intros l' Hnd Hr; [done|].
  apply NoDup_cons in Hnd as [Hy Hnd].
  destruct (decide (x = y)) as [->|Hne].
  - injection Hr as ->. rewrite filter_cons_False by naive_solver.
    symmetry. apply filter_all. by intros z Hz ->.
  - destruct (remove x l) as [l0|] eqn:E; simplify_eq/=.
    rewrite filter_cons_True by naive_solver. f_equal. by apply IH.
Qed.
End list_builtins.

(** ** The reconciliation loop *)

Section reconcile.
Implicit Types (rows : list dict) (ids : list string) (ps : list (string * Z)).

(** One step of the loop, by cases on the row. *)
Lemma reconcile_stocks_cons watch rows ids ps ids' :
  reconcile_stocks (watch :: rows) ids = (inr ps, ids') →
  ((code_of watch ∉ ids) ∧ reconcile_stocks rows ids = (inr ps, ids')) ∨
  (∃ stock ids1 ps1,
      code_of watch ∈ ids ∧
      normalize_quantity (quantity_of watch) = inr stock ∧
      remove (code_of watch) ids = Some ids1 ∧
      reconcile_stocks rows ids1 = (inr ps1, ids') ∧
      ps = (code_of watch, stock) :: ps1).
Proof.
  simpl. destruct (contains _ ids) eqn:Hc.
  - apply contains_true in Hc.
    destruct (normalize_quantity _) as [e|stock]; [done|].
    destruct (remove _ ids) as [ids1|]; [|done].
    destruct (reconcile_stocks rows ids1) as [[e|ps1] ids2] eqn:E; [done|].
    intros [= <- <-]. right. by exists stock, ids1, ps1.
  - apply contains_false in Hc. by left.
Qed.

(** The ids emitted together with the ids left are the ids received, each
    as often as it was there. *)
Lemma reconcile_stocks_Permutation rows ids ps ids' :
  reconcile_stocks rows ids = (inr ps, ids') → ps.*1 ++ ids' ≡ₚ ids.
Proof.
  revert ids ps. induction rows as [|watch rows IH]; intros ids ps.
  - by intros [= <- <-].
  - intros [[_ H]|(stock & ids1 & ps1 & _ & _ & Hr & H & ->)]%reconcile_stocks_cons.
    + by apply IH.
    + simpl. rewrite (IH _ _ H). symmetry. by apply remove_Permutation.
Qed.

(** Every pair emitted comes from a row, with that row's quantity rule. *)
Lemma reconcile_stocks_matched rows ids ps ids' :
  reconcile_stocks rows ids = (inr ps, ids') →
  Forall (λ p, ∃ watch, watch ∈ rows ∧ code_of watch = p.1 ∧
               normalize_quantity (quantity_of watch) = inr p.2) ps.
Proof.
  revert ids ps. induction rows as [|watch rows IH]; intros ids ps.
  - intros [= <- <-]. constructor.
  - intros [[_ H]|(stock & ids1 & ps1 & _ & Hq & _ & H & ->)]%reconcile_stocks_cons.
    + eapply Forall_impl; [by eapply IH|].
      intros p (w & ? & ? & ?). exists w. split; [by right|done].
    + constructor.
      * exists watch. split; [by left|done].
      * eapply Forall_impl; [by eapply IH|].
        intros p (w & ? & ? & ?). exists w. split; [by right|done].
Qed.

(** With no id listed twice, what is left are the ids no row carries. *)
Lemma reconcile_stocks_residual rows ids ps ids' :
  NoDup ids →
  reconcile_stocks rows ids = (inr ps, ids') →
  ids' = filter (λ x, x ∉ code_of <$> rows) ids.
Proof.
  revert ids ps. induction rows as [|watch rows IH]; intros ids ps Hnd.
  - intros [= <- <-]. symmetry. apply filter_all. intros x _. apply not_elem_of_nil.
  - intros [[Hnin H]|(stock & ids1 & ps1 & _ & _ & Hr & H & ->)]%reconcile_stocks_cons.
    + rewrite (IH _ _ Hnd H). apply filter_ext_in. intros x Hx.
      rewrite fmap_cons, not_elem_of_cons.
      split; [|by intros [_ ?]]. intros ?. split; [|done]. by intros ->.
    + pose proof (remove_NoDup _ _ _ Hnd Hr) as ->.
      rewrite (IH _ _ (NoDup_filter _ _ Hnd) H), list_filter_filter.
      apply list_filter_iff. intros x.
      rewrite fmap_cons, not_elem_of_cons. tauto.
Qed.

(** The loop raises only where the quantity rule raises on a row whose code
    is on the list. *)
Lemma reconcile_stocks_total rows ids :
  (∀ watch, watch ∈ rows → code_of watch ∈ ids →
     ∃ stock, normalize_quantity (quantity_of watch) = inr stock) →
  ∃ ps ids', reconcile_stocks rows ids = (inr ps, ids').
Proof.
  revert ids. induction rows as [|watch rows IH]; intros ids Hq; simpl.
  - by eexists _, _.
  - destruct (contains _ ids) eqn:Hc.
    + apply contains_true in Hc.
      destruct (Hq watch) as [stock ->]; [by left|done|].
      destruct (remove_is_Some _ _ Hc) as [ids1 Hr]. rewrite Hr.
      destruct (IH ids1) as (ps & ids' & ->); [|by eexists _, _].
      intros w Hw Hin. apply Hq; [by right|].
      apply remove_Permutation in Hr. rewrite Hr. by right.
    + apply IH. intros w Hw. apply Hq. by right.
Qed.
End reconcile.

(** ** The two [create_stocks] in terms of the loop *)

Ltac unfold_M :=
  unfold run, mbind, M_bind, mret, M_ret, gets, lift, raise, offer_ids_remove;
  simpl.

Section create_stocks_run.
Context {R : Type} (mk : string → Z → R).

Lemma matching_loop_run rows acc st :
  for_in rows acc (λ stocks watch,
    ids ← gets offer_ids;
    if contains (code_of watch) ids then
      stock ← lift (normalize_quantity (dict_get watch "Количество"));
      _ ← offer_ids_remove (code_of watch);
      mret (stocks ++ [mk (code_of watch) stock])
    else mret stocks) st =
  match reconcile_stocks rows (offer_ids st) with
  | (inl e, ids') => (inl e, Store ids' (watch_remnants st))
  | (inr ps, ids') =>
      (inr (acc ++ ((λ p, mk p.1 p.2) <$> ps)), Store ids' (watch_remnants st))
  end.
Proof.
  revert acc st. induction rows as [|watch rows IH]; intros acc [ids ws].
  - simpl. unfold_M. by rewrite app_nil_r.
  - simpl. unfold_M. fold (quantity_of watch).
    destruct (contains (code_of watch) ids); unfold_M.
    + destruct (normalize_quantity (quantity_of watch)) as [e|stock]; [done|].
      destruct (remove (code_of watch) ids) as [ids1|]; [|done].
      unfold_M. unfold mbind, M_bind in IH. rewrite IH. simpl.
      destruct (reconcile_stocks rows ids1) as [[e|ps] ids2]; [done|].
      simpl. by rewrite <-app_assoc.
    + unfold mbind, M_bind in IH. by rewrite IH.
Qed.

Lemma default_loop_run (ids : list string) (acc : list R) (st : store) :
  for_in ids acc (λ stocks offer_id, mret (stocks ++ [mk offer_id 0])) st =
  (inr (acc ++ ((λ offer_id, mk offer_id 0) <$> ids)), st).
Proof.
  revert acc. induction ids as [|x ids IH]; intros acc; simpl.
  - unfold_M. by rewrite app_nil_r.
  - unfold_M. unfold mret, M_ret in IH. rewrite IH.
    by rewrite <-app_assoc.
Qed.
End create_stocks_run.

Lemma Seller_create_stocks_run rows ids :
  run Seller.create_stocks rows ids =
  match reconcile_stocks rows ids with
  | (inl e, ids') => (inl e, Store ids' rows)
  | (inr ps, ids') =>
      (inr (((λ p, Seller.StockRecord p.1 p.2) <$> ps) ++
            ((λ offer_id, Seller.StockRecord offer_id 0) <$> ids')),
       Store ids' rows)
  end.
Proof.
  unfold run, Seller.create_stocks.
  unfold mbind at 1 2, M_bind, gets at 1. simpl.
  rewrite (matching_loop_run Seller.StockRecord). simpl.
  destruct (reconcile_stocks rows ids) as [[e|ps] ids']; [done|].
  unfold gets. simpl. apply (default_loop_run Seller.StockRecord).
Qed.

Lemma Market_create_stocks_run date warehouse_id rows ids :
  run (Market.create_stocks date warehouse_id) rows ids =
  let mk := λ sku stock,
    Market.StockRecord sku warehouse_id [Market.StockItem stock "FIT" date] in
  match reconcile_stocks rows ids with
  | (inl e, ids') => (inl e, Store ids' rows)
  | (inr ps, ids') =>
      (inr (((λ p, mk p.1 p.2) <$> ps) ++ ((λ offer_id, mk offer_id 0) <$> ids')),
       Store ids' rows)
  end.
Proof.
  unfold run, Market.create_stocks.
  unfold mbind at 1 2, M_bind, gets at 1. simpl.
  rewrite (matching_loop_run (λ sku stock,
    Market.StockRecord sku warehouse_id [Market.StockItem stock "FIT" date])).
  simpl.
  destruct (reconcile_stocks rows ids) as [[e|ps] ids']; [done|].
  unfold gets. simpl.
  apply (default_loop_run (λ sku stock,
    Market.StockRecord sku warehouse_id [Market.StockItem stock "FIT" date])).
Qed.

(** ** The two [create_prices] in terms of the loop *)

Lemma prices_loop_run {R} (f : dict → pyexc + R)
    (body : list R → dict → M store (list R)) :
  (∀ acc watch st,
      body acc watch st =
      (if contains (code_of watch) (offer_ids st) then
         match f watch with inl e => inl e | inr r => inr (acc ++ [r]) end
       else inr acc, st)) →
  ∀ rows acc st,
    for_in rows acc body st =
    (match collect_prices f rows (offer_ids st) with
     | inl e => inl e
     | inr rs => inr (acc ++ rs)
     end, st).
Proof.
  intros Hbody. induction rows as [|watch rows IH]; intros acc st; simpl.
  - unfold_M. by rewrite app_nil_r.
  - unfold mbind, M_bind. rewrite Hbody.
    destruct (contains (code_of watch) (offer_ids st)).
    + destruct (f watch) as [e|r]; [done|]. rewrite IH.
      destruct (collect_prices f rows (offer_ids st)) as [e|rs]; [done|].
      by rewrite <-app_assoc.
    + apply IH.
Qed.

Lemma Seller_create_prices_run rows ids :
  run Seller.create_prices rows ids =
  (collect_prices seller_price rows ids, Store ids rows).
Proof.
  unfold run, Seller.create_prices.
  unfold mbind at 1, M_bind, gets at 1. simpl.
  rewrite (prices_loop_run seller_price); simpl.
  - by destruct (collect_prices seller_price rows ids).
  - intros acc watch st. unfold_M. unfold seller_price, price_of.
    destruct (contains _ _); [|done].
    by destruct (Seller.price_conversion _).
Qed.

Lemma Market_create_prices_run rows ids :
  run Market.create_prices rows ids =
  (collect_prices market_price rows ids, Store ids rows).
Proof.
  unfold run, Market.create_prices.
  unfold mbind at 1, M_bind, gets at 1. simpl.
  rewrite (prices_loop_run market_price); simpl.
  - by destruct (collect_prices market_price rows ids).
  - intros acc watch st. unfold_M. unfold market_price, price_of.
    destruct (contains _ _); [|done].
    destruct (Seller.price_conversion _) as [e|digits]; [done|].
    unfold int. by destruct (int_of_str digits).
Qed.

(** What the loop collects: one record per row whose code is on the list, in
    the order of the rows. *)
Lemma collect_prices_Forall2 {R} (f : dict → pyexc + R) rows ids rs :
  collect_prices f rows ids = inr rs →
  Forall2 (λ watch r, f watch = inr r)
          (filter (λ watch, code_of watch ∈ ids) rows) rs.
Proof.
  revert rs. induction rows as [|watch rows IH]; intros rs; simpl.
  - intros [= <-]. constructor.
  - destruct (contains _ ids) eqn:Hc.
    + apply contains_true in Hc. rewrite filter_cons_True by done.
      destruct (f watch) as [e|r] eqn:Hf; [done|].
      destruct (collect_prices f rows ids) as [e|rs']; [done|].
      intros [= <-]. constructor; [done|]. by apply IH.
    + apply contains_false in Hc. rewrite filter_cons_False by done.
      apply IH.
Qed.

Lemma collect_prices_ids {R} (f : dict → pyexc + R) (key : R → string)
    rows ids rs :
  (∀ watch r, f watch = inr r → key r = code_of watch) →
  collect_prices f rows ids = inr rs →
  key <$> rs = filter (λ c, c ∈ ids) (code_of <$> rows).
Proof.
  intros Hkey Hc. apply collect_prices_Forall2 in Hc.
  clear -Hkey Hc. revert rs Hc.
  induction rows as [|watch rows IH]; intros rs.
  - intros ->%Forall2_nil_inv_l. done.
  - rewrite fmap_cons. destruct (decide (code_of watch ∈ ids)) as [Hin|Hnin].
    + rewrite !filter_cons_True by done.
      intros (r & rs' & Hr & Hrs & ->)%Forall2_cons_inv_l.
      rewrite fmap_cons, (Hkey _ _ Hr). f_equal. by apply IH.
    + rewrite !filter_cons_False by done. apply IH.
Qed.

Lemma seller_price_key watch r :
  seller_price watch = inr r → Seller.price_offer_id r = code_of watch.
Proof.
  unfold seller_price. destruct (Seller.price_conversion _); [done|].
  by intros [= <-].
Qed.

Lemma market_price_key watch r :
  market_price watch = inr r → Market.id r = code_of watch.
Proof.
  unfold market_price. destruct (Seller.price_conversion _); [done|].
  destruct (int _); [done|]. by intros [= <-].
Qed.

(** Rows with distinct codes are told apart by their code. *)
Lemma NoDup_fmap_eq {A B} (f : A → B) (l : list A) x y :
  NoDup (f <$> l) → x ∈ l → y ∈ l → f x = f y → x = y.
Proof.
  induction l as [|z l IH]; [by intros _ ?%elem_of_nil|].
  rewrite fmap_cons, NoDup_cons.
  intros [Hz Hnd] [->|Hx]%elem_of_cons [->|Hy]%elem_of_cons Heq; auto.
  - destruct Hz. rewrite Heq. by apply list_elem_of_fmap_2.
  - destruct Hz. rewrite <-Heq. by apply list_elem_of_fmap_2.
Qed.

(** ** What [create_stocks] returns *)

(** [create_stocks] returns whenever the quantity rule accepts every row whose
    code is on the offer-id list. *)
Lemma Seller_create_stocks_returns rows ids :
  (∀ watch, watch ∈ rows → code_of watch ∈ ids →
     ∃ stock, normalize_quantity (quantity_of watch) = inr stock) →
  ∃ stocks st', run Seller.create_stocks rows ids = (inr stocks, st').
Proof.
  intros Hq. rewrite Seller_create_stocks_run.
  destruct (reconcile_stocks_total _ _ Hq) as (ps & ids' & ->).
  by eexists _, _.
Qed.

(** What a successful [Seller.create_stocks] returns, record by record. *)
Lemma Seller_create_stocks_inv rows ids stocks st' :
  run Seller.create_stocks rows ids = (inr stocks, st') →
  ∃ ps ids',
    reconcile_stocks rows ids = (inr ps, ids') ∧
    st' = Store ids' rows ∧
    stocks = ((λ p, Seller.StockRecord p.1 p.2) <$> ps) ++
             ((λ offer_id, Seller.StockRecord offer_id 0) <$> ids').
Proof.
  rewrite Seller_create_stocks_run.
  destruct (reconcile_stocks rows ids) as [[e|ps] ids'] eqn:E; [done|].
  intros [= <- <-]. by exists ps, ids'.
Qed.

Lemma Seller_stock_ids ps (ids' : list string) :
  Seller.offer_id <$> (((λ p, Seller.StockRecord p.1 p.2) <$> ps) ++
                       ((λ offer_id, Seller.StockRecord offer_id 0) <$> ids')) =
  ps.*1 ++ ids'.
Proof.
  rewrite fmap_app, <-!list_fmap_compose. f_equal.
  induction ids' as [|x l IH]; [done|]. simpl. by f_equal.
Qed.

(** ** [int] on strings *)

Section int_of_str.
Implicit Types (c : ascii) (s : string).

Lemma is_digit_not_space c : is_digit c = true → is_space c = false.
Proof.
  destruct c as [[] [] [] [] [] [] [] []]; first [discriminate|reflexivity].
Qed.

Lemma all_space_spec s : all_space s = all_chars is_space s.
Proof. induction s as [|c s IH]; simpl; by rewrite ?IH. Qed.

(** A literal that starts with a digit has no sign to read. *)
Lemma int_of_ascii_digit_head c s :
  is_digit c = true →
  int_of_ascii (String c s) = int_digits (String c s) 0 false.
Proof.
  intros Hd. unfold int_of_ascii. simpl lstrip.
  rewrite (is_digit_not_space _ Hd).
  destruct c as [[] [] [] [] [] [] [] []]; first [discriminate Hd|reflexivity].
Qed.

Lemma all_chars_impl (p q : ascii → bool) s :
  (∀ c, p c = true → q c = true) →
  all_chars p s = true → all_chars q s = true.
Proof.
  intros Hpq. induction s as [|c s IH]; [done|]. simpl.
  intros [Hc Hs]%andb_true_iff. by rewrite (Hpq _ Hc), IH.
Qed.

(** A string of ASCII characters is parsed as it stands. *)
Lemma to_ascii_ascii s :
  all_chars is_ascii s = true → to_ascii s = s.
Proof.
  unfold to_ascii. induction s as [|c s IH]; [done|].
  cbn [all_chars to_ascii_go]. intros [Hc Hs]%andb_true_iff.
  unfold is_ascii in Hc. rewrite Hc. by rewrite IH.
Qed.

Lemma is_digit_ascii c : is_digit c = true → is_ascii c = true.
Proof.
  destruct c as [[] [] [] [] [] [] [] []]; first [discriminate|reflexivity].
Qed.

Lemma int_of_str_digits s :
  all_chars is_digit s = true → int_of_str s = int_of_ascii s.
Proof.
  intros Hs. unfold int_of_str. rewrite to_ascii_ascii; [done|].
  revert Hs. apply all_chars_impl, is_digit_ascii.
Qed.

Lemma pretty_N_char_digit (d : N) :
  (d < 10)%N →
  is_digit (pretty_N_char d) = true ∧ digit_value (pretty_N_char d) = Z.of_N d.
Proof.
  intros Hd.
  assert (d = 0 ∨ d = 1 ∨ d = 2 ∨ d = 3 ∨ d = 4 ∨ d = 5 ∨ d = 6 ∨ d = 7 ∨
          d = 8 ∨ d = 9)%N as Hcases by lia.
  repeat (destruct Hcases as [->|Hcases]; [by split|]). by subst.
Qed.

(** Reading back the digits [pretty] wrote. *)
Lemma int_digits_pretty_N_go (x : N) :
  (0 < x)%N →
  ∀ s prev, int_digits (pretty_N_go x s) 0 prev = int_digits s (Z.of_N x) true.
Proof.
  induction (N.lt_wf_0 x) as [x _ IH]. intros Hx s prev.
  rewrite pretty_N_go_step by done.
  destruct (pretty_N_char_digit (x `mod` 10)) as [Hdig Hval].
  { by apply N.mod_lt. }
  pose proof (N.div_mod x 10 ltac:(done)) as Hdm.
  pose proof (N.div_lt x 10 Hx ltac:(done)) as Hlt.
  revert Hdig Hval Hdm Hlt.
  generalize (x `div` 10)%N (x `mod` 10)%N. intros q r Hdig Hval Hdm Hlt.
  destruct (N.eq_0_gt_0_cases q) as [->|Hq].
  - rewrite pretty_N_go_0. simpl. rewrite Hdig, Hval. f_equal. lia.
  - rewrite IH by done. simpl. rewrite Hdig, Hval. f_equal. lia.
Qed.

Lemma pretty_N_go_head (x : N) s :
  (0 < x)%N →
  ∃ c r, pretty_N_go x s = String c r ∧ is_digit c = true.
Proof.
  revert s. induction (N.lt_wf_0 x) as [x _ IH]. intros s Hx.
  rewrite pretty_N_go_step by done.
  destruct (N.eq_0_gt_0_cases (x `div` 10)) as [Hq|Hq].
  - rewrite Hq, pretty_N_go_0. eexists _, _. split; [done|].
    apply pretty_N_char_digit. by apply N.mod_lt.
  - apply IH; [by apply N.div_lt|done].
Qed.

(** [str] of an integer writes ASCII characters only. *)
Lemma pretty_N_go_ascii (x : N) s :
  all_chars is_ascii s = true → all_chars is_ascii (pretty_N_go x s) = true.
Proof.
  revert s. induction (N.lt_wf_0 x) as [x _ IH]. intros s Hs.
  destruct (N.eq_0_gt_0_cases x) as [->|Hx]; [by rewrite pretty_N_go_0|].
  rewrite pretty_N_go_step by done.
  apply IH; [by apply N.div_lt|]. cbn [all_chars]. rewrite Hs, andb_true_r.
  apply is_digit_ascii, pretty_N_char_digit. by apply N.mod_lt.
Qed.

Lemma pretty_pos_ascii (p : positive) :
  all_chars is_ascii (pretty (Npos p)) = true.
Proof.
  unfold pretty, pretty_N. rewrite decide_False by done.
  by apply pretty_N_go_ascii.
Qed.

Lemma int_of_str_pretty_pos (p : positive) :
  int_of_str (pretty (Npos p)) = Some (Z.pos p) ∧
  int_digits (pretty (Npos p)) 0 false = Some (Z.pos p).
Proof.
  unfold int_of_str. rewrite (to_ascii_ascii _ (pretty_pos_ascii p)).
  unfold pretty, pretty_N. rewrite decide_False by done.
  assert (int_digits (pretty_N_go (N.pos p) "") 0 false = Some (Z.pos p)) as H.
  { by rewrite int_digits_pretty_N_go. }
  split; [|done].
  destruct (pretty_N_go_head (N.pos p) "") as (c & r & Heq & Hd); [done|].
  rewrite Heq in *. by rewrite int_of_ascii_digit_head.
Qed.

(** [int(str(n)) == n]. *)
Lemma int_of_str_pretty (n : Z) : int_of_str (pretty n) = Some n.
Proof.
  destruct n as [|p|p]; [done|..].
  - apply int_of_str_pretty_pos.
  - change (pretty (Z.neg p)) with (String "-" (pretty (Npos p))).
    unfold int_of_str. rewrite to_ascii_ascii.
    + change (int_of_ascii (String "-" (pretty (Npos p))))
        with (Z.opp <$> int_digits (pretty (Npos p)) 0 false).
      by rewrite (proj2 (int_of_str_pretty_pos p)).
    + cbn [all_chars]. by rewrite pretty_pos_ascii.
Qed.

Lemma all_space_int_chars s :
  all_space s = true → all_chars int_char s = true.
Proof.
  induction s as [|c s IH]; [done|]. simpl.
  intros [Hs Hrest]%andb_true_iff. rewrite IH by done.
  unfold int_char. by rewrite Hs, orb_true_r.
Qed.

(** A character outside the literal alphabet makes the literal invalid. *)
Lemma int_digits_bad_char s acc prev :
  all_chars int_char s = false → int_digits s acc prev = None.
Proof.
  revert acc prev. induction s as [|c s IH]; intros acc prev Hbad; [done|].
  cbn [all_chars] in Hbad. cbn [int_digits].
  destruct (int_char c) eqn:Hc.
  - rewrite andb_true_l in Hbad.
    destruct (is_digit c); [by apply IH|].
    destruct (prev && bool_decide (c = "_"%char)); [by apply IH|].
    cbn [all_space]. destruct (all_space s) eqn:Hs.
    + apply all_space_int_chars in Hs. congruence.
    + by rewrite !andb_false_r.
  - unfold int_char in Hc.
    apply orb_false_iff in Hc as [Hc _].
    apply orb_false_iff in Hc as [Hc _].
    apply orb_false_iff in Hc as [Hc Hu].
    apply orb_false_iff in Hc as [Hd Hs].
    rewrite Hd, Hu. cbn [all_space]. rewrite Hs.
    by rewrite !andb_false_r.
Qed.

Lemma some_not_int_char s :
  some_char not_int_char s = true → all_chars int_char s = false.
Proof.
  induction s as [|c s IH]; [done|]. simpl.
  intros [Hc|Hs]%orb_true_iff.
  - unfold not_int_char in Hc. apply andb_true_iff in Hc as [_ Hc].
    apply negb_true_iff in Hc. by rewrite Hc.
  - rewrite IH by done. apply andb_false_r.
Qed.

Lemma lstrip_bad_char s :
  all_chars int_char s = false → all_chars int_char (lstrip s) = false.
Proof.
  induction s as [|c s IH]; [done|]. simpl.
  destruct (is_space c) eqn:Hs; [|done].
  unfold int_char. by rewrite Hs, orb_true_r.
Qed.

Lemma int_of_ascii_bad_char s :
  all_chars int_char s = false → int_of_ascii s = None.
Proof.
  intros Hbad%lstrip_bad_char. unfold int_of_ascii.
  destruct (lstrip s) as [|c r]; [done|].
  assert (c = "-"%char ∨ c = "+"%char ∨ (c ≠ "-"%char ∧ c ≠ "+"%char))
    as [->|[->|[Hm Hp]]].
  { destruct (decide (c = "-"%char)); destruct (decide (c = "+"%char)); auto. }
  - simpl in Hbad. by rewrite int_digits_bad_char.
  - simpl in Hbad. by rewrite int_digits_bad_char.
  - rewrite <-(int_digits_bad_char (String c r) 0 false Hbad).
    destruct c as [[] [] [] [] [] [] [] []]; done.
Qed.

(** An ASCII character is still there when the characters outside ASCII have
    been replaced. *)
Lemma to_ascii_go_bad_char s need acc :
  some_char not_int_char s = true →
  some_char not_int_char (to_ascii_go s need acc) = true.
Proof.
  revert need acc. induction s as [|c s IH]; intros need acc; [done|].
  cbn [some_char to_ascii_go]. cbv zeta.
  destruct (N_of_ascii c <? 128)%N eqn:Hc.
  - intros [Hbad|Hs]%orb_true_iff.
    + destruct need; cbn [some_char]; rewrite Hbad; by rewrite ?orb_true_r.
    + destruct need; cbn [some_char]; rewrite (IH _ _ Hs);
        by rewrite ?orb_true_r.
  - assert (not_int_char c = false) as ->.
    { unfold not_int_char, is_ascii. by rewrite Hc. }
    rewrite orb_false_l. intros Hs.
    repeat case_match; cbn [some_char]; rewrite ?(IH _ _ Hs);
      by rewrite ?orb_true_r.
Qed.

(** A token with an ASCII character that no literal contains is invalid. *)
Lemma int_of_str_bad_char s :
  some_char not_int_char s = true → int_of_str s = None.
Proof.
  intros Hbad. unfold int_of_str, to_ascii.
  by apply int_of_ascii_bad_char, some_not_int_char, to_ascii_go_bad_char.
Qed.
End int_of_str.

(** ** Where the records of [create_stocks] come from *)

Lemma normalize_quantity_cases quantity stock :
  normalize_quantity quantity = inr stock →
  stock = 100 ∨ stock = 0 ∨ int quantity = inr stock.
Proof.
  unfold normalize_quantity. repeat case_decide; naive_solver.
Qed.

Lemma reconcile_stocks_origin rows ids ps ids' :
  reconcile_stocks rows ids = (inr ps, ids') →
  (∀ p, p ∈ ps →
     p.1 ∈ ids ∧
     ∃ watch, watch ∈ rows ∧ code_of watch = p.1 ∧
              normalize_quantity (quantity_of watch) = inr p.2) ∧
  (∀ x, x ∈ ids' → x ∈ ids).
Proof.
  intros Hrec.
  pose proof (reconcile_stocks_Permutation _ _ _ _ Hrec) as Hperm.
  pose proof (reconcile_stocks_matched _ _ _ _ Hrec) as Hmatched.
  rewrite Forall_forall in Hmatched. split.
  - intros p Hp. split; [|by apply Hmatched].
    rewrite <-Hperm. apply elem_of_app. left. by apply list_elem_of_fmap_2.
  - intros x Hx. rewrite <-Hperm. apply elem_of_app. by right.
Qed.

Lemma Seller_stock_origin rows ids stocks st' :
  run Seller.create_stocks rows ids = (inr stocks, st') →
  ∀ r, r ∈ stocks →
    Seller.offer_id r ∈ ids ∧
    ((∃ watch, watch ∈ rows ∧ code_of watch = Seller.offer_id r ∧
        normalize_quantity (quantity_of watch) = inr (Seller.stock r)) ∨
     (Seller.offer_id r ∈ offer_ids st' ∧ Seller.stock r = 0)).
Proof.
  intros (ps & ids' & Hrec & -> & ->)%Seller_create_stocks_inv r.
  destruct (reconcile_stocks_origin _ _ _ _ Hrec) as [Hps Hids'].
  intros [Hr|Hr]%elem_of_app.
  - apply list_elem_of_fmap in Hr as (p & -> & Hp).
    destruct (Hps p Hp) as [? ?]. split; [done|by left].
  - apply list_elem_of_fmap in Hr as (c & -> & Hc). simpl.
    split; [by apply Hids'|by right].
Qed.

Lemma Market_create_stocks_inv date warehouse_id rows ids stocks st' :
  run (Market.create_stocks date warehouse_id) rows ids = (inr stocks, st') →
  ∃ ps ids',
    reconcile_stocks rows ids = (inr ps, ids') ∧
    st' = Store ids' rows ∧
    stocks =
      ((λ p, Market.StockRecord p.1 warehouse_id
               [Market.StockItem p.2 "FIT" date]) <$> ps) ++
      ((λ offer_id, Market.StockRecord offer_id warehouse_id
                      [Market.StockItem 0 "FIT" date]) <$> ids').
Proof.
  rewrite Market_create_stocks_run. cbv zeta.
  destruct (reconcile_stocks rows ids) as [[e|ps] ids'] eqn:E; [done|].
  intros [= <- <-]. by exists ps, ids'.
Qed.

Lemma Market_stock_origin date warehouse_id rows ids stocks st' :
  run (Market.create_stocks date warehouse_id) rows ids = (inr stocks, st') →
  ∀ r, r ∈ stocks →
    Market.sku r ∈ ids ∧
    ∃ stock, Market.items r = [Market.StockItem stock "FIT" date] ∧
      ((∃ watch, watch ∈ rows ∧ code_of watch = Market.sku r ∧
          normalize_quantity (quantity_of watch) = inr stock) ∨
       (Market.sku r ∈ offer_ids st' ∧ stock = 0)).
Proof.
  intros (ps & ids' & Hrec & -> & ->)%Market_create_stocks_inv r.
  destruct (reconcile_stocks_origin _ _ _ _ Hrec) as [Hps Hids'].
  intros [Hr|Hr]%elem_of_app.
  - apply list_elem_of_fmap in Hr as (p & -> & Hp).
    destruct (Hps p Hp) as [? ?]. split; [done|].
    exists p.2. split; [done|by left].
  - apply list_elem_of_fmap in Hr as (c & -> & Hc). simpl.
    split; [by apply Hids'|]. exists 0. split; [done|by right].
Qed.

(** ** The quantity rule *)

Lemma str_int_not_gt10 (n : Z) : pretty n ≠ ">10".
Proof.
  intros Heq. pose proof (int_of_str_pretty n) as Hn.
  rewrite Heq in Hn. discriminate Hn.
Qed.

Lemma str_int_is_1 (n : Z) : pretty n = "1" ↔ n = 1.
Proof.
  split; [|by intros ->].
  intros Heq. by apply (inj (pretty : Z → string)).
Qed.

(** The matching loop and the rows it matches. *)
Lemma matched_rows_cons watch rows ids :
  ((code_of watch ∉ ids) ∧
   matched_rows (watch :: rows) ids = matched_rows rows ids) ∨
  (∃ ids1, code_of watch ∈ ids ∧ remove (code_of watch) ids = Some ids1 ∧
           matched_rows (watch :: rows) ids = watch :: matched_rows rows ids1).
Proof.
  simpl. destruct (contains _ ids) eqn:Hc.
  - apply contains_true in Hc. right.
    destruct (remove_is_Some _ _ Hc) as [ids1 Hr]. rewrite Hr. by exists ids1.
  - apply contains_false in Hc. by left.
Qed.

Lemma reconcile_stocks_matched_rows rows ids ps ids' :
  reconcile_stocks rows ids = (inr ps, ids') →
  Forall2 (λ watch p, p.1 = code_of watch ∧
                      normalize_quantity (quantity_of watch) = inr p.2)
          (matched_rows rows ids) ps.
Proof.
  revert ids ps. induction rows as [|watch rows IH]; intros ids ps.
  - intros [= <- <-]. constructor.
  - intros [[Hnin H]|(stock & ids1 & ps1 & Hin & Hq & Hr & H & ->)]%reconcile_stocks_cons.
    + destruct (matched_rows_cons watch rows ids)
        as [[_ ->]|(? & ? & _)]; [by apply IH|done].
    + destruct (matched_rows_cons watch rows ids)
        as [[? _]|(ids2 & _ & Hr' & ->)]; [done|].
      assert (ids2 = ids1) as -> by congruence.
      constructor; [done|by apply IH].
Qed.

Lemma reconcile_stocks_returns_iff rows ids :
  (∃ ps ids', reconcile_stocks rows ids = (inr ps, ids')) ↔
  Forall (λ watch, ∃ stock, normalize_quantity (quantity_of watch) = inr stock)
         (matched_rows rows ids).
Proof.
  revert ids. induction rows as [|watch rows IH]; intros ids.
  - split; [constructor|by eexists _, _].
  - destruct (matched_rows_cons watch rows ids)
      as [[Hnin ->]|(ids1 & Hin & Hr & ->)]; simpl.
    + apply contains_false in Hnin. rewrite Hnin. apply IH.
    + apply contains_true in Hin. rewrite Hin, Hr, Forall_cons, <-IH.
      destruct (normalize_quantity (quantity_of watch)) as [e|stock].
      * split; [by intros (? & ? & ?)|by intros [[? ?] _]].
      * destruct (reconcile_stocks rows ids1) as [[e|ps1] ids2].
        -- split; [by intros (? & ? & ?)|by intros [_ (? & ? & ?)]].
        -- split; intros _; [|by eexists _, _].
           split; [by eexists|by eexists _, _].
Qed.

Lemma reconcile_stocks_raises_iff rows ids e :
  (reconcile_stocks rows ids).1 = inl e ↔
  ∃ before watch after,
    matched_rows rows ids = before ++ watch :: after ∧
    Forall (λ w, ∃ stock, normalize_quantity (quantity_of w) = inr stock)
           before ∧
    normalize_quantity (quantity_of watch) = inl e.
Proof.
  revert ids. induction rows as [|watch rows IH]; intros ids.
  - simpl. split; [done|]. intros (before & w & after & Hm & _).
    by destruct before.
  - destruct (matched_rows_cons watch rows ids)
      as [[Hnin ->]|(ids1 & Hin & Hr & ->)]; simpl.
    + apply contains_false in Hnin. rewrite Hnin. apply IH.
    + apply contains_true in Hin. rewrite Hin, Hr.
      destruct (normalize_quantity (quantity_of watch)) as [e0|stock] eqn:Hq.
      * simpl. split.
        -- intros [= ->]. by exists [], watch, (matched_rows rows ids1).
        -- intros ([|b before] & w & after & Hm & Hacc & He);
             simplify_eq/=; [congruence|].
           apply Forall_cons in Hacc as [[? ?] _]. congruence.
      * assert ((let '(r, ids2) := reconcile_stocks rows ids1 in
                 match r with
                 | inl e1 => (inl e1, ids2)
                 | inr ps => (inr ((code_of watch, stock) :: ps), ids2)
                 end).1 = inl e ↔ (reconcile_stocks rows ids1).1 = inl e)
          as Hstep.
        { destruct (reconcile_stocks rows ids1) as [[e1|ps1] ids2]; by simpl. }
        etrans; [|etrans; [apply (IH ids1)|]].
        { destruct (reconcile_stocks rows ids1) as [[e1|ps1] ids2]; by simpl. }
        split.
        -- intros (before & w & after & -> & Hacc & He).
           exists (watch :: before), w, after. split; [done|].
           split; [|done]. constructor; [by eexists|done].
        -- intros ([|b before] & w & after & Hm & Hacc & He);
             simplify_eq/=; [congruence|].
           apply Forall_cons in Hacc as [_ Hacc].
           by exists before, w, after.
Qed.

(** With distinct row codes the matched rows are the rows whose code is on
    the list. *)
Lemma matched_rows_distinct_codes rows ids :
  NoDup (code_of <$> rows) →
  matched_rows rows ids = filter (λ watch, code_of watch ∈ ids) rows.
Proof.
  revert ids. induction rows as [|watch rows IH]; intros ids; [done|].
  rewrite fmap_cons, NoDup_cons. intros [Hfresh Hnd].
  destruct (matched_rows_cons watch rows ids)
    as [[Hnin ->]|(ids1 & Hin & Hr & ->)].
  - rewrite filter_cons_False by done. by apply IH.
  - rewrite filter_cons_True by done. f_equal. rewrite IH by done.
    apply filter_ext_in. intros w Hw.
    apply remove_Permutation in Hr. rewrite Hr, elem_of_cons.
    split; [tauto|]. intros [Heq|?]; [|done].
    destruct Hfresh. rewrite <-Heq. by apply list_elem_of_fmap_2.
Qed.

(** C2. The quantity rule of [create_stocks], the same in both modules, sends
    the token ">10" to 100 and the token "1" to 0; any other token goes to
    what [int] reads from it, so the decimal text of an integer goes to that
    integer; a token [int] cannot read, such as one with an ASCII character
    that no integer literal has, raises [ValueError].
    The rule is applied to every matched row, in either module and for an
    inventory of any length: with distinct codes the matched rows are the
    rows whose code is on the offer-id list; [create_stocks] returns exactly
    when the rule accepts every matched row; it then returns, before the
    records with stock 0 for the ids left over, one record for each matched
    row, in row order, with the row's code and the value of the rule on the
    row's quantity; and it raises [e] exactly when the first matched row the
    rule does not accept makes the rule raise [e]. *)
Theorem quantity_normalization :
  normalize_quantity (VStr ">10") = inr 100 ∧
  normalize_quantity (VStr "1") = inr 0 ∧
  normalize_quantity (VStr "7") = inr 7 ∧
  (∀ token n, token ≠ ">10" → token ≠ "1" → int_of_str token = Some n →
     normalize_quantity (VStr token) = inr n) ∧
  (∀ n, n ≠ 1 → normalize_quantity (VStr (pretty n)) = inr n) ∧
  (∀ token, token ≠ ">10" → int_of_str token = None →
     normalize_quantity (VStr token) = inl ValueError) ∧
  (∀ token, token ≠ ">10" → some_char not_int_char token = true →
     normalize_quantity (VStr token) = inl ValueError) ∧
  (∀ rows ids,
     NoDup (code_of <$> rows) →
     matched_rows rows ids = filter (λ watch, code_of watch ∈ ids) rows) ∧
  (∀ rows ids,
     ((∃ stocks st', run Seller.create_stocks rows ids = (inr stocks, st')) ↔
      Forall (λ watch, ∃ stock,
                normalize_quantity (quantity_of watch) = inr stock)
             (matched_rows rows ids)) ∧
     (∀ stocks st',
        run Seller.create_stocks rows ids = (inr stocks, st') →
        ∃ matched,
          stocks =
            matched ++
            ((λ offer_id, Seller.StockRecord offer_id 0) <$> offer_ids st') ∧
          Forall2 (λ watch r, ∃ stock,
                     normalize_quantity (quantity_of watch) = inr stock ∧
                     r = Seller.StockRecord (code_of watch) stock)
                  (matched_rows rows ids) matched) ∧
     (∀ e, (run Seller.create_stocks rows ids).1 = inl e ↔
        ∃ before watch after,
          matched_rows rows ids = before ++ watch :: after ∧
          Forall (λ w, ∃ stock,
                    normalize_quantity (quantity_of w) = inr stock) before ∧
          normalize_quantity (quantity_of watch) = inl e)) ∧
  (∀ date warehouse_id rows ids,
     ((∃ stocks st',
         run (Market.create_stocks date warehouse_id) rows ids
           = (inr stocks, st')) ↔
      Forall (λ watch, ∃ stock,
                normalize_quantity (quantity_of watch) = inr stock)
             (matched_rows rows ids)) ∧
     (∀ stocks st',
        run (Market.create_stocks date warehouse_id) rows ids
          = (inr stocks, st') →
        ∃ matched,
          stocks =
            matched ++
            ((λ offer_id, Market.StockRecord offer_id warehouse_id
                            [Market.StockItem 0 "FIT" date]) <$> offer_ids st') ∧
          Forall2 (λ watch r, ∃ stock,
                     normalize_quantity (quantity_of watch) = inr stock ∧
                     r = Market.StockRecord (code_of watch) warehouse_id
                           [Market.StockItem stock "FIT" date])
                  (matched_rows rows ids) matched) ∧
     (∀ e, (run (Market.create_stocks date warehouse_id) rows ids).1 = inl e ↔
        ∃ before watch after,
          matched_rows rows ids = before ++ watch :: after ∧
          Forall (λ w, ∃ stock,
                    normalize_quantity (quantity_of w) = inr stock) before ∧
          normalize_quantity (quantity_of watch) = inl e)).
Proof.
  assert (Hnone : ∀ token, token ≠ ">10" → int_of_str token = None →
            normalize_quantity (VStr token) = inl ValueError).
  { intros token H10 Hint. unfold normalize_quantity. simpl.
    rewrite decide_False by done.
    destruct (decide (token = "1")) as [->|_]; [discriminate Hint|].
    by rewrite Hint. }
  assert (Hsome : ∀ token n, token ≠ ">10" → token ≠ "1" →
            int_of_str token = Some n → normalize_quantity (VStr token) = inr n).
  { intros token n H10 H1 Hint. unfold normalize_quantity. simpl.
    rewrite !decide_False by done. by rewrite Hint. }
  split_and!; try done.
  - intros n Hn. apply Hsome.
    + apply str_int_not_gt10.
    + by rewrite str_int_is_1.
    + apply int_of_str_pretty.
  - intros token H10 Hbad. apply Hnone; [done|].
    by apply int_of_str_bad_char.
  - apply matched_rows_distinct_codes.
  - intros rows ids. split_and!.
    + rewrite <-reconcile_stocks_returns_iff, Seller_create_stocks_run.
      destruct (reconcile_stocks rows ids) as [[e|ps] ids']; split.
      * by intros (? & ? & ?).
      * by intros (? & ? & ?).
      * intros _. by eexists _, _.
      * intros _. by eexists _, _.
    + intros stocks st' (ps & ids' & Hrec & -> & ->)%Seller_create_stocks_inv.
      eexists. split; [done|]. apply Forall2_fmap_r.
      eapply Forall2_impl; [exact (reconcile_stocks_matched_rows _ _ _ _ Hrec)|].
      intros watch [c stock] [Hc Hq]. simpl in *. subst c. by exists stock.
    + intros e. rewrite <-reconcile_stocks_raises_iff, Seller_create_stocks_run.
      destruct (reconcile_stocks rows ids) as [[e1|ps] ids']; simpl;
        [split; by intros [= ->]|split; discriminate].
  - intros date warehouse_id rows ids. split_and!.
    + rewrite <-reconcile_stocks_returns_iff, Market_create_stocks_run.
      cbv zeta.
      destruct (reconcile_stocks rows ids) as [[e|ps] ids']; split.
      * by intros (? & ? & ?).
      * by intros (? & ? & ?).
      * intros _. by eexists _, _.
      * intros _. by eexists _, _.
    + intros stocks st' (ps & ids' & Hrec & -> & ->)%Market_create_stocks_inv.
      eexists. split; [done|]. apply Forall2_fmap_r.
      eapply Forall2_impl; [exact (reconcile_stocks_matched_rows _ _ _ _ Hrec)|].
      intros watch [c stock] [Hc Hq]. simpl in *. subst c. by exists stock.
    + intros e. rewrite <-reconcile_stocks_raises_iff, Market_create_stocks_run.
      cbv zeta. destruct (reconcile_stocks rows ids) as [[e1|ps] ids']; simpl;
        [split; by intros [= ->]|split; discriminate].
Qed.

Lemma quantity_normalization_witness :
  normalize_quantity (VStr "42") = inr 42 ∧
  normalize_quantity (VStr (pretty (-3))) = inr (-3) ∧
  normalize_quantity (VStr (of_bytes [217; 163])) = inr 3 ∧
  normalize_quantity (VStr "много") = inl ValueError ∧
  normalize_quantity (VStr "3 pcs") = inl ValueError ∧
  normalize_quantity (VStr (of_bytes [56; 31])) = inl ValueError ∧
  matched_rows scenario_rows scenario_ids =
    filter (λ watch, code_of watch ∈ scenario_ids) scenario_rows ∧
  (∃ stocks st',
     run Seller.create_stocks scenario_rows scenario_ids = (inr stocks, st')) ∧
  (∃ matched,
     [Seller.StockRecord "A1" 100; Seller.StockRecord "A2" 0;
      Seller.StockRecord "A3" 0] =
       matched ++ ((λ offer_id, Seller.StockRecord offer_id 0) <$> ["A3"]) ∧
     Forall2 (λ watch r, ∃ stock,
                normalize_quantity (quantity_of watch) = inr stock ∧
                r = Seller.StockRecord (code_of watch) stock)
             (matched_rows scenario_rows scenario_ids) matched) ∧
  (run Seller.create_stocks late_unreadable_rows scenario_ids).1
    = inl ValueError ∧
  (run (Market.create_stocks "" "") late_unreadable_rows scenario_ids).1
    = inl ValueError.
Proof.
  destruct quantity_normalization
    as (_ & _ & _ & Hsome & Hpretty & Hnone & Hbad & Hfilter & Hseller &
        Hmarket).
  destruct (Hseller scenario_rows scenario_ids) as (Hret & Hrecords & _).
  split_and!.
  - apply Hsome; [discriminate|discriminate|reflexivity].
  - apply Hpretty. lia.
  - apply Hsome; [discriminate|discriminate|reflexivity].
  - apply Hnone; [discriminate|reflexivity].
  - apply Hbad; [discriminate|reflexivity].
  - apply Hbad; [discriminate|reflexivity].
  - apply Hfilter. apply (bool_decide_unpack _). vm_compute. reflexivity.
  - apply Hret. repeat constructor; eexists; vm_compute; reflexivity.
  - apply (Hrecords _ (Store ["A3"] scenario_rows)). vm_compute. reflexivity.
  - apply (proj2 (Hseller late_unreadable_rows scenario_ids)).
    exists [row (VStr "A1") (VStr "7") (VStr "10")],
           (row (VStr "A2") (VStr "много") (VStr "10")),
           [row (VStr "A3") (VStr "4") (VStr "10")].
    split_and!; [reflexivity| |reflexivity].
    repeat constructor. eexists. vm_compute. reflexivity.
  - apply (proj2 (Hmarket "" "" late_unreadable_rows scenario_ids)).
    exists [row (VStr "A1") (VStr "7") (VStr "10")],
           (row (VStr "A2") (VStr "много") (VStr "10")),
           [row (VStr "A3") (VStr "4") (VStr "10")].
    split_and!; [reflexivity| |reflexivity].
    repeat constructor. eexists. vm_compute. reflexivity.
Defined.


Lemma normalize_quantity_None : normalize_quantity VNone = inl TypeError.
Proof. reflexivity. Qed.

(** ** The offer-id list after [create_stocks] *)

(** C3, as the code has it.  For an offer-id list with distinct ids, a call
    of [create_stocks] that returns leaves in the caller's list exactly the ids
    that are the code of no inventory row, in their order, and leaves the
    inventory list as it was; the caller's list is changed as soon as one row
    matches.  The same holds in both modules. *)
Theorem create_stocks_consumes_matched_ids (rows : list dict) (ids : list string) :
  NoDup ids →
  (∀ stocks st',
      run Seller.create_stocks rows ids = (inr stocks, st') →
      offer_ids st' = filter (λ x, x ∉ code_of <$> rows) ids ∧
      watch_remnants st' = rows ∧
      (∀ watch, watch ∈ rows → code_of watch ∈ ids → offer_ids st' ≠ ids)) ∧
  (∀ date warehouse_id stocks st',
      run (Market.create_stocks date warehouse_id) rows ids = (inr stocks, st') →
      offer_ids st' = filter (λ x, x ∉ code_of <$> rows) ids ∧
      watch_remnants st' = rows ∧
      (∀ watch, watch ∈ rows → code_of watch ∈ ids → offer_ids st' ≠ ids)).
Proof.
  intros Hids.
  assert (Hcore : ∀ ps ids',
    reconcile_stocks rows ids = (inr ps, ids') →
    ids' = filter (λ x, x ∉ code_of <$> rows) ids ∧
    (∀ watch, watch ∈ rows → code_of watch ∈ ids → ids' ≠ ids)).
  { intros ps ids' Hrec.
    pose proof (reconcile_stocks_residual _ _ _ _ Hids Hrec) as Hres.
    split; [done|]. intros watch Hw Hin Heq.
    rewrite <-Heq, Hres in Hin.
    apply list_elem_of_filter in Hin as [Hnin _].
    apply Hnin. by apply list_elem_of_fmap_2. }
  split.
  - intros stocks st' (ps & ids' & Hrec & -> & _)%Seller_create_stocks_inv.
    destruct (Hcore _ _ Hrec) as [? ?]. by split_and!.
  - intros date warehouse_id stocks st'
      (ps & ids' & Hrec & -> & _)%Market_create_stocks_inv.
    destruct (Hcore _ _ Hrec) as [? ?]. by split_and!.
Qed.

Lemma create_stocks_consumes_matched_ids_witness :
  offer_ids (Store ["A3"] scenario_rows) =
    filter (λ x, x ∉ code_of <$> scenario_rows) scenario_ids ∧
  offer_ids (Store ["A3"] scenario_rows) ≠ scenario_ids.
Proof.
  assert (Hids : NoDup scenario_ids).
  { apply (bool_decide_unpack _). vm_compute. reflexivity. }
  destruct (proj1 (create_stocks_consumes_matched_ids scenario_rows
                     scenario_ids Hids)
              [Seller.StockRecord "A1" 100; Seller.StockRecord "A2" 0;
               Seller.StockRecord "A3" 0]
              (Store ["A3"] scenario_rows))
    as (Hres & _ & Hchanged).
  { vm_compute. reflexivity. }
  split; [exact Hres|].
  apply (Hchanged (row (VStr "A1") (VStr ">10") (VStr "500.00"))).
  - by left.
  - apply (bool_decide_unpack _). vm_compute. reflexivity.
Defined.

(** C3 as stated fails: with an id listed twice, one copy of a matched id is
    still on the caller's list after the call; and when the quantity rule
    raises on a row, the row's id is still there as well. *)
Lemma create_stocks_leaves_matched_id :
  (run Seller.create_stocks plain_rows repeated_ids =
     (inr [Seller.StockRecord "A1" 5; Seller.StockRecord "A1" 0],
      Store ["A1"] plain_rows) ∧
   offer_ids (run Seller.create_stocks plain_rows repeated_ids).2
     ≠ filter (λ x, x ∉ code_of <$> plain_rows) repeated_ids) ∧
  (run Seller.create_stocks unreadable_rows ["A1"] =
     (inl ValueError, Store ["A1"] unreadable_rows) ∧
   offer_ids (run Seller.create_stocks unreadable_rows ["A1"]).2
     ≠ filter (λ x, x ∉ code_of <$> unreadable_rows) ["A1"]).
Proof.
  split_and!; try (vm_compute; reflexivity); vm_compute; discriminate.
Qed.

(** ** Stock values *)

(** C9 as stated fails: a quantity "-5" gives a record with stock -5. *)
Lemma create_stocks_negative_stock :
  run Seller.create_stocks negative_rows ["A1"] =
    (inr [Seller.StockRecord "A1" (-5)], Store [] negative_rows) ∧
  ¬ (∀ rows ids stocks st' r,
       run Seller.create_stocks rows ids = (inr stocks, st') →
       r ∈ stocks → 0 ≤ Seller.stock r).
Proof.
  assert (Hrun : run Seller.create_stocks negative_rows ["A1"] =
            (inr [Seller.StockRecord "A1" (-5)], Store [] negative_rows)).
  { vm_compute. reflexivity. }
  split; [exact Hrun|]. intros Hall.
  specialize (Hall _ _ _ _ (Seller.StockRecord "A1" (-5)) Hrun).
  simpl in Hall. apply Hall; [by left|reflexivity].
Qed.

(** C9, as the code has it.  When no inventory row whose code is on the
    offer-id list has a quantity that [int] reads as a negative number, every
    record a successful [create_stocks] returns has a stock of at least 0, in
    both modules. *)
Theorem create_stocks_nonnegative (rows : list dict) (ids : list string) :
  (∀ watch n, watch ∈ rows → code_of watch ∈ ids →
     int (quantity_of watch) = inr n → 0 ≤ n) →
  (∀ stocks st' r,
      run Seller.create_stocks rows ids = (inr stocks, st') →
      r ∈ stocks → 0 ≤ Seller.stock r) ∧
  (∀ date warehouse_id stocks st' r,
      run (Market.create_stocks date warehouse_id) rows ids = (inr stocks, st') →
      r ∈ stocks → Forall (λ item, 0 ≤ Market.count item) (Market.items r)).
Proof.
  intros Hint.
  assert (Hrule : ∀ watch stock, watch ∈ rows → code_of watch ∈ ids →
            normalize_quantity (quantity_of watch) = inr stock → 0 ≤ stock).
  { intros watch stock Hw Hin [->|[->|Hq]]%normalize_quantity_cases;
      [lia|lia|by eapply Hint]. }
  split.
  - intros stocks st' r Hrun Hr.
    destruct (Seller_stock_origin _ _ _ _ Hrun r Hr)
      as [Hin [(w & Hw & Hcode & Hq)|[_ ->]]]; [|done].
    apply (Hrule w); [done| |done]. by rewrite Hcode.
  - intros date warehouse_id stocks st' r Hrun Hr.
    destruct (Market_stock_origin _ _ _ _ _ _ Hrun r Hr)
      as [Hin (stock & -> & [(w & Hw & Hcode & Hq)|[_ ->]])].
    + repeat constructor. simpl. apply (Hrule w); [done| |done].
      by rewrite Hcode.
    + by repeat constructor.
Qed.

Lemma create_stocks_nonnegative_witness :
  0 ≤ Seller.stock (Seller.StockRecord "A1" 100).
Proof.
  apply (proj1 (create_stocks_nonnegative scenario_rows scenario_ids
    ltac:(intros watch n Hw _ Hn;
          repeat (apply elem_of_cons in Hw as [->|Hw];
                  [vm_compute in Hn; first [discriminate Hn|by simplify_eq]|]);
          by apply elem_of_nil in Hw))
    [Seller.StockRecord "A1" 100; Seller.StockRecord "A2" 0;
     Seller.StockRecord "A3" 0]
    (Store ["A3"] scenario_rows)).
  - vm_compute. reflexivity.
  - by left.
Defined.

(** ** [create_prices] leaves its arguments alone *)

(** C10. Whatever [create_prices] returns or raises, in both modules, the
    caller's offer-id list and the inventory list are afterwards what they
    were before the call; [create_stocks] on the scenario, by contrast,
    shortens the offer-id list. *)
Theorem create_prices_frame :
  (∀ rows ids,
     (run Seller.create_prices rows ids).2 = Store ids rows ∧
     (run Market.create_prices rows ids).2 = Store ids rows) ∧
  (run Seller.create_stocks scenario_rows scenario_ids).2
    ≠ Store scenario_ids scenario_rows.
Proof.
  split.
  - intros rows ids.
    by rewrite Seller_create_prices_run, Market_create_prices_run.
  - vm_compute. discriminate.
Qed.

(** ** [price_conversion] *)

Section price_conversion.
Implicit Types (c : ascii) (s : string).

(** The first piece [split] gives is what stands before the first dot. *)
Lemma split_dot_first s :
  ∃ before pieces,
    split "." s = before :: pieces ∧
    all_chars not_dot before = true ∧
    ((s = before ∧ all_chars not_dot s = true) ∨
     ∃ rest, s = before +:+ "." +:+ rest).
Proof.
  induction s as [|c s (before & pieces & Hsplit & Hnodot & Hshape)].
  - exists "", []. split_and!; [done..|]. by left.
  - simpl. destruct (decide (c = "."%char)) as [->|Hc].
    + exists "", (split "." s). split_and!; [done..|]. right. by exists s.
    + rewrite bool_decide_eq_false_2 by done. rewrite Hsplit.
      exists (String c before), pieces.
      assert (not_dot c = true) as Hnd.
      { unfold not_dot. by rewrite bool_decide_eq_false_2. }
      split_and!; [done|simpl; by rewrite Hnd|].
      destruct Hshape as [[-> Hall]|[rest ->]].
      * left. split; [done|]. simpl. by rewrite Hnd.
      * right. by exists rest.
Qed.

Lemma sub_non_digits_filter s :
  list_ascii_of_string (sub_non_digits s) =
  filter (λ c, is_digit c = true) (list_ascii_of_string s).
Proof.
  induction s as [|c s IH]; [done|]. simpl.
  destruct (is_digit c) eqn:Hd.
  - rewrite filter_cons_True by done. simpl. by rewrite IH.
  - rewrite filter_cons_False by congruence. done.
Qed.
End price_conversion.

(** C4. For every string, [price_conversion] returns the ASCII digits, in
    order, of the part of the string that stands before its first '.' (of the
    whole string when it has no '.'); so "1 234.56 ₽" gives "1234" and "999"
    gives "999". *)
Theorem price_conversion_digits_before_dot :
  (∀ s : string, ∃ before : string,
     Seller.price_conversion (VStr s) = inr (sub_non_digits before) ∧
     all_chars not_dot before = true ∧
     ((s = before ∧ all_chars not_dot s = true) ∨
      ∃ rest, s = before +:+ "." +:+ rest) ∧
     list_ascii_of_string (sub_non_digits before) =
       filter (λ c, is_digit c = true) (list_ascii_of_string before) ∧
     all_chars is_digit (sub_non_digits before) = true) ∧
  Seller.price_conversion (VStr "1 234.56 ₽") = inr "1234" ∧
  Seller.price_conversion (VStr "999") = inr "999".
Proof.
  split; [|by split].
  intros s. destruct (split_dot_first s) as (before & pieces & Hs & Hnd & Hshape).
  exists before. split_and!; [|done|done|apply sub_non_digits_filter|].
  - unfold Seller.price_conversion. by rewrite Hs.
  - clear. induction before as [|c s IH]; [done|]. simpl.
    destruct (is_digit c) eqn:Hd; [|done]. simpl. by rewrite Hd.
Qed.

(** ** [divide] *)

Section divide.
Context {A : Type}.
Implicit Types (lst : list A) (n c i : nat).

(** The chunks [divide] builds for a positive size [n]. *)
Lemma divide_positive lst (size : Z) :
  1 ≤ size →
  Seller.divide lst size =
  inr ((λ k, take (Z.to_nat size) (drop (k * Z.to_nat size) lst)) <$>
       seq 0 ((length lst + Z.to_nat size - 1) / Z.to_nat size)).
Proof.
  intros Hsize. unfold Seller.divide, range0.
  rewrite decide_False by lia. rewrite decide_False by lia.
  f_equal. rewrite <-list_fmap_compose. done.
Qed.

Lemma chunks_concat n c lst :
  (length lst ≤ c * n)%nat →
  concat ((λ k, take n (drop (k * n) lst)) <$> seq 0 c) = lst.
Proof.
  revert lst. induction c as [|c IH]; intros lst Hlen.
  - simpl in *. symmetry. by apply nil_length_inv, Nat.le_0_r.
  - cbn [seq]. rewrite fmap_cons, <-fmap_S_seq, <-list_fmap_compose.
    cbn [concat]. rewrite Nat.mul_0_l, drop_0.
    etrans; [|apply (take_drop n lst)]. f_equal.
    etrans; [|apply (IH (drop n lst)); rewrite length_drop; lia].
    f_equal. apply list_fmap_ext. intros _ k _. simpl.
    by rewrite drop_drop.
Qed.

Lemma ceil_div_bounds len n :
  (0 < n)%nat →
  (len ≤ (len + n - 1) / n * n ∧ (len + n - 1) / n * n < len + n)%nat.
Proof.
  intros Hn.
  pose proof (Nat.div_mod (len + n - 1) n ltac:(lia)) as Hdm.
  pose proof (Nat.mod_upper_bound (len + n - 1) n ltac:(lia)) as Hmod.
  lia.
Qed.
End divide.

(** C5. For a size of at least 1, [divide] returns chunks whose
    concatenation is the list: every chunk has between 1 and [size] elements,
    every chunk but the last has exactly [size], and the empty list gives no
    chunk at all. *)
Theorem divide_chunks {A} (lst : list A) (size : Z) :
  1 ≤ size →
  ∃ chunks,
    Seller.divide lst size = inr chunks ∧
    concat chunks = lst ∧
    (∀ i chunk, chunks !! i = Some chunk →
       1 ≤ Z.of_nat (length chunk) ≤ size ∧
       ((S i < length chunks)%nat → Z.of_nat (length chunk) = size)) ∧
    (lst = [] → chunks = []).
Proof.
  intros Hsize. eexists. split; [by apply divide_positive|].
  set (n := Z.to_nat size). set (c := ((length lst + n - 1) / n)%nat).
  destruct (ceil_div_bounds (length lst) n ltac:(lia)) as [Hlo Hhi].
  fold c in Hlo, Hhi. split_and!.
  - by apply chunks_concat.
  - intros i chunk Hi. rewrite length_fmap, length_seq.
    apply list_lookup_fmap_Some in Hi as (k & -> & Hk).
    apply lookup_seq in Hk as [-> Hic]. simpl in *.
    rewrite length_take, length_drop.
    assert ((i + 1) * n ≤ c * n)%nat by (apply Nat.mul_le_mono_r; lia).
    split; [lia|]. intros Hlast.
    assert ((i + 2) * n ≤ c * n)%nat by (apply Nat.mul_le_mono_r; lia).
    lia.
  - intros ->. subst c. simpl.
    replace (n - 1)%nat with (n - 1 + 0)%nat by lia.
    rewrite Nat.add_0_r, Nat.div_small by lia. done.
Qed.

Lemma divide_chunks_witness :
  ∃ chunks,
    Seller.divide [1; 2; 3; 4; 5] 2 = inr chunks ∧
    concat chunks = [1; 2; 3; 4; 5] ∧
    (∀ i chunk, chunks !! i = Some chunk →
       1 ≤ Z.of_nat (length chunk) ≤ 2 ∧
       ((S i < length chunks)%nat → Z.of_nat (length chunk) = 2)) ∧
    ([1; 2; 3; 4; 5] = [] → chunks = []).
Proof. apply (divide_chunks [1; 2; 3; 4; 5] 2). lia. Defined.

(** What [divide] does with a size below 1: 0 raises, a negative size gives
    no chunk and no error, whatever the list holds. *)
Lemma divide_zero_size {A} (lst : list A) : Seller.divide lst 0 = inl ValueError.
Proof. done. Qed.

Lemma divide_negative_size {A} (lst : list A) (size : Z) :
  size < 0 → Seller.divide lst size = inr [].
Proof.
  intros Hsize. unfold Seller.divide, range0.
  rewrite decide_False by lia. by rewrite decide_True by lia.
Qed.

(** C7 fails on the code: with size -1 the list [1, 2, 3] is batched into
    nothing and no error is raised; only size 0 raises [ValueError]. *)
Theorem divide_nonpositive_size :
  Seller.divide [1; 2; 3] (-1) = inr [] ∧
  Seller.divide [1; 2; 3] 0 = inl ValueError.
Proof. by split. Qed.

(** C8 fails on the code: a price with no digit before its first dot, the
    empty string included, comes back as the empty string; a price that is not
    a string raises [AttributeError], not [ValueError]. *)
Theorem price_conversion_empty_result :
  Seller.price_conversion (VStr "") = inr "" ∧
  Seller.price_conversion (VStr "руб.") = inr "" ∧
  Seller.price_conversion (VStr ".99") = inr "" ∧
  Seller.price_conversion VNone = inl AttributeError ∧
  Seller.price_conversion (VInt 500) = inl AttributeError.
Proof. by split_and!. Qed.

(** ** The upload loop *)

Section upload_loop.
Context {Req R : Type}.
Context (update : list R → M (list Req) unit) (wrap : list R → Req).
Hypothesis update_logs : ∀ b log, (update b log).2 = log ++ [wrap b].

(** When every batch is accepted, every batch is sent, once, in order. *)
Lemma upload_loop_all_sent batches log :
  (∀ i b, batches !! i = Some b →
     (update b (log ++ (wrap <$> take i batches))).1 = inr tt) →
  for_in batches tt (λ _ b, update b) log = (inr tt, log ++ (wrap <$> batches)).
Proof.
  revert log. induction batches as [|b0 bs IH]; intros log Hok.
  - simpl. by rewrite app_nil_r.
  - simpl. unfold mbind, M_bind.
    pose proof (Hok 0%nat b0 eq_refl) as H0. simpl in H0.
    rewrite app_nil_r in H0. pose proof (update_logs b0 log) as Hlog.
    destruct (update b0 log) as [[e|[]] log']; simpl in *; [done|]. subst log'.
    rewrite IH.
    + by rewrite <-app_assoc.
    + intros i b Hb. rewrite <-app_assoc. apply (Hok (S i) b Hb).
Qed.

(** When batch number [N] (counted from 0) is the first to raise, the batches
    up to and including it were sent, once each and in order, nothing after it
    was sent, and the loop raises what that batch raised. *)
Lemma upload_loop_stops batches log N e :
  (∀ i b, (i < N)%nat → batches !! i = Some b →
     (update b (log ++ (wrap <$> take i batches))).1 = inr tt) →
  (∃ b, batches !! N = Some b ∧
        (update b (log ++ (wrap <$> take N batches))).1 = inl e) →
  for_in batches tt (λ _ b, update b) log =
  (inl e, log ++ (wrap <$> take (S N) batches)).
Proof.
  revert log N. induction batches as [|b0 bs IH]; intros log N Hok (b & Hb & Hfail).
  - done.
  - simpl. unfold mbind, M_bind.
    pose proof (update_logs b0 log) as Hlog. destruct N as [|N].
    + injection Hb as <-. simpl in Hfail. rewrite app_nil_r in Hfail.
      destruct (update b0 log) as [[e'|[]] log']; simpl in *; [|done].
      by simplify_eq.
    + pose proof (Hok 0%nat b0 ltac:(lia) eq_refl) as H0. simpl in H0.
      rewrite app_nil_r in H0.
      destruct (update b0 log) as [[e'|[]] log']; simpl in *; [done|].
      subst log'. rewrite (IH _ N).
      * by rewrite <-app_assoc.
      * intros i b' Hi Hb'. rewrite <-app_assoc.
        apply (Hok (S i) b' ltac:(lia) Hb').
      * exists b. split; [done|]. by rewrite <-app_assoc.
Qed.
End upload_loop.

Lemma Seller_update_stocks_logs srv b log :
  (Seller.update_stocks srv b log).2 = log ++ [Seller.ImportStocks b].
Proof.
  unfold Seller.update_stocks, send, raise_for_status, json. unfold_M.
  destruct (srv log _) as [e|r]; [done|].
  case_decide; [done|]. simpl. by destruct (body_is_json r).
Qed.

Lemma Market_update_stocks_logs srv b log :
  (Market.update_stocks srv b log).2 = log ++ [Market.PutStocks b].
Proof.
  unfold Market.update_stocks, send, raise_for_status, json. unfold_M.
  destruct (srv log _) as [e|r]; [done|].
  case_decide; [done|]. simpl. by destruct (body_is_json r).
Qed.

(** C6. In [upload_stocks] of either module: when the submission of batch
    number [N] (counted from 0) is the first to raise, the requests sent are
    the batches before it and that batch itself, once each and in order; no
    later batch is sent, nothing is sent twice, and [upload_stocks] raises the
    exception the submission raised. *)
Theorem upload_stops_at_failed_batch :
  (∀ srv get_offer_ids rows log0 ids log1 stocks batches N e,
     get_offer_ids log0 = (inr ids, log1) →
     (run Seller.create_stocks rows ids).1 = inr stocks →
     Seller.divide stocks 100 = inr batches →
     (∀ i b, (i < N)%nat → batches !! i = Some b →
        (Seller.update_stocks srv b
           (log1 ++ (Seller.ImportStocks <$> take i batches))).1 = inr tt) →
     (∃ b, batches !! N = Some b ∧
        (Seller.update_stocks srv b
           (log1 ++ (Seller.ImportStocks <$> take N batches))).1 = inl e) →
     Seller.upload_stocks srv get_offer_ids rows log0 =
     (inl e, log1 ++ (Seller.ImportStocks <$> take (S N) batches))) ∧
  (∀ srv get_offer_ids date rows warehouse_id log0 ids log1 stocks batches N e,
     get_offer_ids log0 = (inr ids, log1) →
     (run (Market.create_stocks date warehouse_id) rows ids).1 = inr stocks →
     Seller.divide stocks 2000 = inr batches →
     (∀ i b, (i < N)%nat → batches !! i = Some b →
        (Market.update_stocks srv b
           (log1 ++ (Market.PutStocks <$> take i batches))).1 = inr tt) →
     (∃ b, batches !! N = Some b ∧
        (Market.update_stocks srv b
           (log1 ++ (Market.PutStocks <$> take N batches))).1 = inl e) →
     Market.upload_stocks srv get_offer_ids date rows warehouse_id log0 =
     (inl e, log1 ++ (Market.PutStocks <$> take (S N) batches))).
Proof.
  split.
  - intros srv get_offer_ids rows log0 ids log1 stocks batches N e
      Hget Hstocks Hdiv Hok Hfail.
    unfold Seller.upload_stocks. unfold mbind at 1 2 3 4, M_bind.
    rewrite Hget. unfold run in Hstocks. unfold lift at 1 2.
    rewrite Hstocks, Hdiv.
    rewrite (upload_loop_stops (Seller.update_stocks srv) Seller.ImportStocks
               (Seller_update_stocks_logs srv) batches log1 N e Hok Hfail).
    done.
  - intros srv get_offer_ids date rows warehouse_id log0 ids log1 stocks
      batches N e Hget Hstocks Hdiv Hok Hfail.
    unfold Market.upload_stocks. unfold mbind at 1 2 3 4, M_bind.
    rewrite Hget. unfold run in Hstocks. unfold lift at 1 2.
    rewrite Hstocks, Hdiv.
    rewrite (upload_loop_stops (Market.update_stocks srv) Market.PutStocks
               (Market_update_stocks_logs srv) batches log1 N e Hok Hfail).
    done.
Qed.

Lemma upload_stops_at_failed_batch_witness :
  (∃ stocks batches,
     (run Seller.create_stocks [] (many_ids 250)).1 = inr stocks ∧
     Seller.divide stocks 100 = inr batches ∧
     length batches = 3%nat ∧
     Seller.upload_stocks (failing_server 1 (inr (Response 500 true)))
       (mret (many_ids 250)) [] [] =
     (inl HTTPError, Seller.ImportStocks <$> take 2 batches)) ∧
  (∃ stocks batches,
     (run (Market.create_stocks "2024-01-01T00:00:00Z" "7") [] (many_ids 4100)).1
       = inr stocks ∧
     Seller.divide stocks 2000 = inr batches ∧
     length batches = 3%nat ∧
     Market.upload_stocks (failing_server 1 (inl ConnectionError))
       (mret (many_ids 4100)) "2024-01-01T00:00:00Z" [] "7" [] =
     (inl ConnectionError, Market.PutStocks <$> take 2 batches)).
Proof.
  destruct upload_stops_at_failed_batch as [Hseller Hmarket]. split.
  - eexists _, _. split; [vm_compute; reflexivity|].
    split; [vm_compute; reflexivity|]. split; [reflexivity|].
    eapply (Hseller _ _ [] [] (many_ids 250) [] _ _ 1%nat HTTPError).
    + reflexivity.
    + vm_compute. reflexivity.
    + vm_compute. reflexivity.
    + intros i b Hi Hb. destruct i as [|i]; [|lia].
      injection Hb as <-. vm_compute. reflexivity.
    + eexists. split; [reflexivity|]. vm_compute. reflexivity.
  - eexists _, _. split; [vm_compute; reflexivity|].
    split; [vm_compute; reflexivity|]. split; [reflexivity|].
    eapply (Hmarket _ _ _ [] _ [] (many_ids 4100) [] _ _ 1%nat ConnectionError).
    + reflexivity.
    + vm_compute. reflexivity.
    + vm_compute. reflexivity.
    + intros i b Hi Hb. destruct i as [|i]; [|lia].
      injection Hb as <-. vm_compute. reflexivity.
    + eexists. split; [reflexivity|]. vm_compute. reflexivity.
Defined.

(** * Further properties of the reconciliation functions *)

Lemma Market_stock_ids date warehouse_id ps (ids' : list string) :
  Market.sku <$>
    (((λ p, Market.StockRecord p.1 warehouse_id
              [Market.StockItem p.2 "FIT" date]) <$> ps) ++
     ((λ offer_id, Market.StockRecord offer_id warehouse_id
                     [Market.StockItem 0 "FIT" date]) <$> ids')) =
  ps.*1 ++ ids'.
Proof.
  rewrite fmap_app, <-!list_fmap_compose. f_equal.
  induction ids' as [|x l IH]; [done|]. simpl. by f_equal.
Qed.

(** The codes the matching loop emits, when no two rows share a code: the
    row codes that are on the list, in row order. *)
Lemma reconcile_stocks_matched_codes rows ids ps ids' :
  NoDup (code_of <$> rows) →
  reconcile_stocks rows ids = (inr ps, ids') →
  ps.*1 = filter (λ c, c ∈ ids) (code_of <$> rows).
Proof.
  revert ids ps. induction rows as [|watch rows IH]; intros ids ps Hnd.
  - by intros [= <- <-].
  - rewrite fmap_cons in Hnd |- *. apply NoDup_cons in Hnd as [Hfresh Hnd].
    intros [[Hnin H]|(stock & ids1 & ps1 & Hin & _ & Hr & H & ->)]%reconcile_stocks_cons.
    + rewrite filter_cons_False by done. by apply IH.
    + rewrite filter_cons_True by done. rewrite fmap_cons. f_equal.
      rewrite (IH _ _ Hnd H). apply filter_ext_in. intros c Hc.
      apply remove_Permutation in Hr. rewrite Hr, elem_of_cons.
      split; [tauto|]. intros [->|?]; [done|done].
Qed.

(** Rows whose code is not on the list never reach the loop body. *)
Lemma reconcile_stocks_unlisted rows (ids0 ids : list string) :
  (∀ x, x ∈ ids → x ∈ ids0) →
  reconcile_stocks (filter (λ watch, code_of watch ∈ ids0) rows) ids =
  reconcile_stocks rows ids.
Proof.
  revert ids. induction rows as [|watch rows IH]; intros ids Hsub; [done|].
  destruct (decide (code_of watch ∈ ids0)) as [Hin|Hnin].
  - rewrite filter_cons_True by done. simpl.
    destruct (contains _ ids); [|by apply IH].
    destruct (normalize_quantity _); [done|].
    destruct (remove _ ids) as [ids1|] eqn:Hr; [|done].
    rewrite IH; [done|]. intros x Hx. apply Hsub.
    apply remove_Permutation in Hr. rewrite Hr. by right.
  - rewrite filter_cons_False by done. simpl.
    assert (contains (code_of watch) ids = false) as ->.
    { apply contains_false. intros ?. by apply Hnin, Hsub. }
    by apply IH.
Qed.

Lemma collect_prices_unlisted {R} (f : dict → pyexc + R) rows ids :
  collect_prices f (filter (λ watch, code_of watch ∈ ids) rows) ids =
  collect_prices f rows ids.
Proof.
  induction rows as [|watch rows IH]; [done|].
  destruct (decide (code_of watch ∈ ids)) as [Hin|Hnin].
  - rewrite filter_cons_True by done. simpl. by rewrite IH.
  - rewrite filter_cons_False by done. simpl.
    apply contains_false in Hnin. by rewrite Hnin.
Qed.

(** With distinct row codes, a loop that returns has read the quantity of
    every row whose code is on the list. *)
Lemma reconcile_stocks_reads_listed rows ids ps ids' :
  NoDup (code_of <$> rows) →
  reconcile_stocks rows ids = (inr ps, ids') →
  ∀ watch, watch ∈ rows → code_of watch ∈ ids →
    ∃ stock, normalize_quantity (quantity_of watch) = inr stock.
Proof.
  revert ids ps. induction rows as [|watch0 rows IH]; intros ids ps Hnd.
  - intros _ watch Hw. by apply elem_of_nil in Hw.
  - rewrite fmap_cons in Hnd. apply NoDup_cons in Hnd as [Hfresh Hnd].
    intros [[Hnin H]|(stock & ids1 & ps1 & Hin & Hq & Hr & H & ->)]%reconcile_stocks_cons
      watch [->|Hw]%elem_of_cons Hlisted.
    + done.
    + by eapply IH.
    + by exists stock.
    + eapply IH; [done..|].
      apply remove_Permutation in Hr. rewrite Hr in Hlisted.
      apply elem_of_cons in Hlisted as [Heq|?]; [|done].
      destruct Hfresh. rewrite <-Heq. by apply list_elem_of_fmap_2.
Qed.

(** X1. Whatever the inventory and the offer-id list hold (codes or ids may
    repeat), the records a returning [create_stocks] gives back carry the ids
    of the list it received, each as often as the list had it; so there are as
    many records as ids.  Both modules. *)
Theorem create_stocks_ids_any_input (rows : list dict) (ids : list string) :
  (∀ stocks st',
      run Seller.create_stocks rows ids = (inr stocks, st') →
      Seller.offer_id <$> stocks ≡ₚ ids ∧ length stocks = length ids) ∧
  (∀ date warehouse_id stocks st',
      run (Market.create_stocks date warehouse_id) rows ids = (inr stocks, st') →
      Market.sku <$> stocks ≡ₚ ids ∧ length stocks = length ids).
Proof.
  split.
  - intros stocks st' (ps & ids' & Hrec & _ & ->)%Seller_create_stocks_inv.
    pose proof (reconcile_stocks_Permutation _ _ _ _ Hrec) as Hperm.
    rewrite <-(length_fmap Seller.offer_id), Seller_stock_ids.
    by rewrite Hperm.
  - intros date warehouse_id stocks st'
      (ps & ids' & Hrec & _ & ->)%Market_create_stocks_inv.
    pose proof (reconcile_stocks_Permutation _ _ _ _ Hrec) as Hperm.
    rewrite <-(length_fmap Market.sku), Market_stock_ids.
    by rewrite Hperm.
Qed.

Lemma create_stocks_ids_any_input_witness :
  Seller.offer_id <$> [Seller.StockRecord "A1" 5; Seller.StockRecord "A1" 0]
    ≡ₚ repeated_ids ∧
  length [Seller.StockRecord "A1" 5; Seller.StockRecord "A1" 0]
    = length repeated_ids.
Proof.
  apply (proj1 (create_stocks_ids_any_input plain_rows repeated_ids) _
           (Store ["A1"] plain_rows)).
  vm_compute. reflexivity.
Defined.

(** X2. With distinct row codes and distinct ids, the order of the records of
    [create_stocks] is fixed: first the row codes that are on the list, in row
    order, then the ids that are no row's code, in list order.  Both
    modules. *)
Theorem create_stocks_order (rows : list dict) (ids : list string) :
  NoDup (code_of <$> rows) →
  NoDup ids →
  (∀ stocks st',
      run Seller.create_stocks rows ids = (inr stocks, st') →
      Seller.offer_id <$> stocks =
        filter (λ c, c ∈ ids) (code_of <$> rows) ++
        filter (λ x, x ∉ code_of <$> rows) ids) ∧
  (∀ date warehouse_id stocks st',
      run (Market.create_stocks date warehouse_id) rows ids = (inr stocks, st') →
      Market.sku <$> stocks =
        filter (λ c, c ∈ ids) (code_of <$> rows) ++
        filter (λ x, x ∉ code_of <$> rows) ids).
Proof.
  intros Hcodes Hids. split.
  - intros stocks st' (ps & ids' & Hrec & _ & ->)%Seller_create_stocks_inv.
    rewrite Seller_stock_ids.
    by rewrite (reconcile_stocks_matched_codes _ _ _ _ Hcodes Hrec),
               (reconcile_stocks_residual _ _ _ _ Hids Hrec).
  - intros date warehouse_id stocks st'
      (ps & ids' & Hrec & _ & ->)%Market_create_stocks_inv.
    rewrite Market_stock_ids.
    by rewrite (reconcile_stocks_matched_codes _ _ _ _ Hcodes Hrec),
               (reconcile_stocks_residual _ _ _ _ Hids Hrec).
Qed.

Lemma create_stocks_order_witness :
  Seller.offer_id <$>
    [Seller.StockRecord "A1" 100; Seller.StockRecord "A2" 0;
     Seller.StockRecord "A3" 0] =
  filter (λ c, c ∈ scenario_ids) (code_of <$> scenario_rows) ++
  filter (λ x, x ∉ code_of <$> scenario_rows) scenario_ids.
Proof.
  assert (Hrows : NoDup (code_of <$> scenario_rows)).
  { apply (bool_decide_unpack _). vm_compute. reflexivity. }
  assert (Hids : NoDup scenario_ids).
  { apply (bool_decide_unpack _). vm_compute. reflexivity. }
  apply (proj1 (create_stocks_order scenario_rows scenario_ids Hrows Hids) _
           (Store ["A3"] scenario_rows)).
  vm_compute. reflexivity.
Defined.

(** X3. Inventory rows whose code is not on the offer-id list play no part:
    dropping them from the inventory changes neither what [create_stocks] and
    [create_prices] return or raise nor the offer-id list they leave.  In
    particular an unreadable quantity or price in such a row is never looked
    at.  Both modules. *)
Theorem unlisted_rows_are_ignored (rows : list dict) (ids : list string) :
  let listed := filter (λ watch, code_of watch ∈ ids) rows in
  ((run Seller.create_stocks listed ids).1 = (run Seller.create_stocks rows ids).1 ∧
   offer_ids (run Seller.create_stocks listed ids).2
     = offer_ids (run Seller.create_stocks rows ids).2) ∧
  (∀ date warehouse_id,
     (run (Market.create_stocks date warehouse_id) listed ids).1
       = (run (Market.create_stocks date warehouse_id) rows ids).1 ∧
     offer_ids (run (Market.create_stocks date warehouse_id) listed ids).2
       = offer_ids (run (Market.create_stocks date warehouse_id) rows ids).2) ∧
  (run Seller.create_prices listed ids).1 = (run Seller.create_prices rows ids).1 ∧
  (run Market.create_prices listed ids).1 = (run Market.create_prices rows ids).1.
Proof.
  intros listed. subst listed. split_and!.
  - rewrite !Seller_create_stocks_run, reconcile_stocks_unlisted by done.
    by destruct (reconcile_stocks rows ids) as [[e|ps] ids'].
  - rewrite !Seller_create_stocks_run, reconcile_stocks_unlisted by done.
    by destruct (reconcile_stocks rows ids) as [[e|ps] ids'].
  - intros date warehouse_id.
    rewrite !Market_create_stocks_run, reconcile_stocks_unlisted by done.
    cbv zeta. by destruct (reconcile_stocks rows ids) as [[e|ps] ids'].
  - rewrite !Seller_create_prices_run. simpl. apply collect_prices_unlisted.
  - rewrite !Market_create_prices_run. simpl. apply collect_prices_unlisted.
Qed.

(** X4. With distinct row codes, [create_stocks] returns exactly when the
    quantity rule accepts every row whose code is on the offer-id list: one
    unreadable quantity among those rows makes the whole call raise.  Both
    modules. *)
Theorem create_stocks_returns_iff (rows : list dict) (ids : list string) :
  NoDup (code_of <$> rows) →
  ((∃ stocks st', run Seller.create_stocks rows ids = (inr stocks, st')) ↔
   (∀ watch, watch ∈ rows → code_of watch ∈ ids →
      ∃ stock, normalize_quantity (quantity_of watch) = inr stock)) ∧
  (∀ date warehouse_id,
     (∃ stocks st',
        run (Market.create_stocks date warehouse_id) rows ids = (inr stocks, st')) ↔
     (∀ watch, watch ∈ rows → code_of watch ∈ ids →
        ∃ stock, normalize_quantity (quantity_of watch) = inr stock)).
Proof.
  intros Hcodes. split; [|intros date warehouse_id]; split.
  - intros (stocks & st' & (ps & ids' & Hrec & _)%Seller_create_stocks_inv).
    by eapply reconcile_stocks_reads_listed.
  - intros Hq. rewrite Seller_create_stocks_run.
    destruct (reconcile_stocks_total _ _ Hq) as (ps & ids' & ->).
    by eexists _, _.
  - intros (stocks & st' & (ps & ids' & Hrec & _)%Market_create_stocks_inv).
    by eapply reconcile_stocks_reads_listed.
  - intros Hq. rewrite Market_create_stocks_run. cbv zeta.
    destruct (reconcile_stocks_total _ _ Hq) as (ps & ids' & ->).
    by eexists _, _.
Qed.

Lemma create_stocks_returns_iff_witness :
  ¬ ∃ stocks st', run Seller.create_stocks unreadable_rows ["A1"] = (inr stocks, st').
Proof.
  assert (Hrows : NoDup (code_of <$> unreadable_rows)).
  { apply (bool_decide_unpack _). vm_compute. reflexivity. }
  intros Hret.
  pose proof (proj1 (proj1 (create_stocks_returns_iff unreadable_rows ["A1"]
                              Hrows)) Hret) as Hall.
  destruct (Hall (row (VStr "A1") (VStr "много") (VStr "10"))) as [stock Hs].
  - by left.
  - by left.
  - vm_compute in Hs. discriminate Hs.
Defined.

(** * Further properties of the price functions *)

Section prices.
Implicit Types (c : ascii) (s : string).

Lemma digit_value_range c :
  is_digit c = true → 0 ≤ digit_value c ≤ 9.
Proof.
  unfold is_digit, digit_value. cbv zeta.
  intros [?%Nat.leb_le ?%Nat.leb_le]%andb_true_iff. lia.
Qed.

Lemma int_digits_nonneg s acc prev v :
  0 ≤ acc → int_digits s acc prev = Some v → 0 ≤ v.
Proof.
  revert acc prev. induction s as [|c s IH]; intros acc prev Hacc; simpl.
  - destruct prev; [|done]. by intros [= <-].
  - destruct (is_digit c) eqn:Hd.
    { apply IH. pose proof (digit_value_range c Hd). lia. }
    destruct (prev && bool_decide (c = "_"%char)); [by apply IH|].
    destruct (prev && _); [|done]. by intros [= <-].
Qed.

(** A string of digits holds no dot and is left alone by [re.sub]. *)
Lemma digits_no_dot s :
  all_chars is_digit s = true → split "." s = [s].
Proof.
  induction s as [|c s IH]; [done|]. simpl.
  intros [Hc Hs]%andb_true_iff. rewrite (IH Hs).
  rewrite bool_decide_eq_false_2; [done|]. by intros ->.
Qed.

Lemma digits_sub_non_digits s :
  all_chars is_digit s = true → sub_non_digits s = s.
Proof.
  induction s as [|c s IH]; [done|]. simpl.
  intros [Hc Hs]%andb_true_iff. by rewrite Hc, IH.
Qed.

Lemma sub_non_digits_digits s : all_chars is_digit (sub_non_digits s) = true.
Proof.
  induction s as [|c s IH]; [done|]. simpl.
  destruct (is_digit c) eqn:Hd; [|done]. simpl. by rewrite Hd.
Qed.

(** What [int] reads from a string of digits is not negative. *)
Lemma int_of_digits_nonneg s v :
  all_chars is_digit s = true → int_of_str s = Some v → 0 ≤ v.
Proof.
  intros Hs. rewrite (int_of_str_digits _ Hs).
  destruct s as [|c s]; [done|].
  apply andb_true_iff in Hs as [Hc _].
  rewrite int_of_ascii_digit_head by done.
  by apply int_digits_nonneg.
Qed.

Lemma price_conversion_inv s d :
  Seller.price_conversion (VStr s) = inr d →
  ∃ before, d = sub_non_digits before.
Proof.
  unfold Seller.price_conversion.
  destruct (split "." s !! 0%nat) as [before|]; [|done].
  intros [= <-]. by exists before.
Qed.

Lemma price_conversion_never_IndexError price :
  Seller.price_conversion price ≠ inl IndexError.
Proof.
  destruct price as [|n|s]; [done|done|]. unfold Seller.price_conversion.
  destruct (split_dot_first s) as (before & pieces & -> & _). done.
Qed.

(** The piece before the first dot does not depend on what follows it. *)
Lemma split_first_app s rest :
  split "." (s +:+ "." +:+ rest) !! 0%nat = split "." s !! 0%nat.
Proof.
  induction s as [|c s IH]; [done|]. simpl.
  destruct (bool_decide (c = "."%char)); [done|].
  destruct (split_dot_first (s +:+ "." +:+ rest)) as (b1 & p1 & H1 & _).
  destruct (split_dot_first s) as (b2 & p2 & H2 & _).
  rewrite H1, H2 in IH |- *. simpl in *. by simplify_eq.
Qed.
End prices.

(** The loop of [create_prices] returns exactly when the record can be built
    for every row whose code is on the list; what it raises, a row raised. *)
Lemma collect_prices_returns_iff {R} (f : dict → pyexc + R) rows ids :
  (∃ rs, collect_prices f rows ids = inr rs) ↔
  (∀ watch, watch ∈ rows → code_of watch ∈ ids → ∃ r, f watch = inr r).
Proof.
  induction rows as [|watch rows IH]; simpl.
  - split; [|by eexists]. intros _ w Hw. by apply elem_of_nil in Hw.
  - destruct (contains _ ids) eqn:Hc.
    + apply contains_true in Hc. split.
      * intros [rs Hrs]. destruct (f watch) as [e|r] eqn:Hf; [done|].
        destruct (collect_prices f rows ids) as [e|rs'] eqn:E; [done|].
        intros w [->|Hw]%elem_of_cons Hin; [by eexists|].
        apply IH; [by eexists|done..].
      * intros Hall. destruct (Hall watch) as [r ->]; [by left|done|].
        destruct (proj2 IH) as [rs ->]; [|by eexists].
        intros w Hw. apply Hall. by right.
    + apply contains_false in Hc. rewrite IH. split.
      * intros Hall w [->|Hw]%elem_of_cons Hin; [done|by apply Hall].
      * intros Hall w Hw. apply Hall. by right.
Qed.

Lemma collect_prices_raises {R} (f : dict → pyexc + R) rows ids e :
  collect_prices f rows ids = inl e →
  ∃ watch, watch ∈ rows ∧ code_of watch ∈ ids ∧ f watch = inl e.
Proof.
  induction rows as [|watch rows IH]; simpl; [done|].
  destruct (contains _ ids) eqn:Hc.
  - apply contains_true in Hc. destruct (f watch) as [e'|r] eqn:Hf.
    + intros [= ->]. exists watch. split; [by left|done].
    + destruct (collect_prices f rows ids) as [e'|rs]; [|done].
      intros [= ->]. destruct IH as (w & ? & ? & ?); [done|].
      exists w. split; [by right|done].
  - intros He. destruct (IH He) as (w & ? & ? & ?).
    exists w. split; [by right|done].
Qed.

(** X5. [create_prices] returns one record for every inventory row whose code
    is on the offer-id list, in row order, a row with a repeated code
    included.  In seller.py the record has the fixed fields "UNKNOWN", "RUB"
    and old price "0" and the digits before the first dot of the row's price;
    in market.py it has currency "RUR" and, as value, the integer those digits
    spell, which is never negative. *)
Theorem create_prices_records (rows : list dict) (ids : list string) :
  (∀ prices st',
      run Seller.create_prices rows ids = (inr prices, st') →
      Forall2 (λ watch r, ∃ digits,
                 Seller.price_conversion (price_of watch) = inr digits ∧
                 r = Seller.PriceRecord "UNKNOWN" "RUB" (code_of watch) "0" digits)
              (filter (λ watch, code_of watch ∈ ids) rows) prices) ∧
  (∀ prices st',
      run Market.create_prices rows ids = (inr prices, st') →
      Forall2 (λ watch r, ∃ digits v,
                 Seller.price_conversion (price_of watch) = inr digits ∧
                 int_of_str digits = Some v ∧ 0 ≤ v ∧
                 r = Market.PriceRecord (code_of watch) (Market.PriceValue v "RUR"))
              (filter (λ watch, code_of watch ∈ ids) rows) prices).
Proof.
  split.
  - intros prices st'. rewrite Seller_create_prices_run. intros [= Hc _].
    eapply Forall2_impl; [by apply collect_prices_Forall2|].
    intros watch r. unfold seller_price.
    destruct (Seller.price_conversion _) as [e|digits]; [done|].
    intros [= <-]. by exists digits.
  - intros prices st'. rewrite Market_create_prices_run. intros [= Hc _].
    eapply Forall2_impl; [by apply collect_prices_Forall2|].
    intros watch r. unfold market_price.
    destruct (Seller.price_conversion _) as [e|digits] eqn:Hp; [done|].
    unfold int. destruct (int_of_str digits) as [v|] eqn:Hv; [|done].
    intros [= <-]. exists digits, v. split_and!; [done..| |done].
    destruct (price_of watch) as [|n|s]; [done|done|].
    apply price_conversion_inv in Hp as [before ->].
    eapply int_of_digits_nonneg; [apply sub_non_digits_digits|done].
Qed.

Lemma create_prices_records_witness :
  Forall2 (λ watch r, ∃ digits,
             Seller.price_conversion (price_of watch) = inr digits ∧
             r = Seller.PriceRecord "UNKNOWN" "RUB" (code_of watch) "0" digits)
          (filter (λ watch, code_of watch ∈ scenario_ids) scenario_rows)
          [Seller.PriceRecord "UNKNOWN" "RUB" "A1" "0" "500";
           Seller.PriceRecord "UNKNOWN" "RUB" "A2" "0" "1200"].
Proof.
  apply (proj1 (create_prices_records scenario_rows scenario_ids) _
           (Store scenario_ids scenario_rows)).
  vm_compute. reflexivity.
Defined.

(** X6. [create_prices] of seller.py returns exactly when the price cell of
    every row whose code is on the list is a string, and raises
    [AttributeError] otherwise; it never raises anything else, whatever the
    strings hold. *)
Theorem Seller_create_prices_returns_iff (rows : list dict) (ids : list string) :
  ((∃ prices, (run Seller.create_prices rows ids).1 = inr prices) ↔
   (∀ watch, watch ∈ rows → code_of watch ∈ ids →
      ∃ s, price_of watch = VStr s)) ∧
  (∀ e, (run Seller.create_prices rows ids).1 = inl e → e = AttributeError).
Proof.
  rewrite Seller_create_prices_run. simpl. split.
  - rewrite collect_prices_returns_iff.
    split; intros Hall watch Hw Hin; destruct (Hall watch Hw Hin) as [x Hx].
    + unfold seller_price, Seller.price_conversion in Hx.
      destruct (price_of watch) as [|n|s]; [done|done|by exists s].
    + unfold seller_price. rewrite Hx.
      destruct (split_dot_first x) as (before & pieces & Hs & _).
      unfold Seller.price_conversion. rewrite Hs. by eexists.
  - intros e (watch & _ & _ & He)%collect_prices_raises.
    unfold seller_price in He.
    destruct (Seller.price_conversion (price_of watch)) as [e'|d] eqn:Hp; [|done].
    injection He as ->. unfold Seller.price_conversion in Hp.
    destruct (price_of watch) as [|n|s]; [by simplify_eq..|].
    destruct (split_dot_first s) as (before & pieces & Hs & _).
    by rewrite Hs in Hp.
Qed.

Lemma Seller_create_prices_returns_iff_witness :
  ∃ s, price_of (row (VStr "A1") (VStr ">10") (VStr "500.00")) = VStr s.
Proof.
  apply (proj1 (proj1 (Seller_create_prices_returns_iff scenario_rows
                         scenario_ids))
           ltac:(eexists; vm_compute; reflexivity)).
  - by left.
  - by left.
Defined.

(** X7. [create_prices] of market.py cannot return when the price of a row
    whose code is on the list has no digit before its first dot: [int] of the
    empty string raises.  On the same input [create_prices] of seller.py, when
    it returns, hands back a record with an empty price. *)
Theorem Market_create_prices_digitless (rows : list dict) (ids : list string)
    (watch : dict) :
  watch ∈ rows →
  code_of watch ∈ ids →
  Seller.price_conversion (price_of watch) = inr "" →
  (∃ e, (run Market.create_prices rows ids).1 = inl e) ∧
  (∀ prices, (run Seller.create_prices rows ids).1 = inr prices →
     Seller.PriceRecord "UNKNOWN" "RUB" (code_of watch) "0" "" ∈ prices).
Proof.
  intros Hw Hin Hp. rewrite Market_create_prices_run, Seller_create_prices_run.
  simpl. split.
  - destruct (collect_prices market_price rows ids) as [e|rs] eqn:Hc; [by eexists|].
    assert (∃ r, market_price watch = inr r) as [r Hr].
    { eapply collect_prices_returns_iff; [by eexists|done..]. }
    unfold market_price in Hr. rewrite Hp in Hr. done.
  - intros prices Hc. apply collect_prices_Forall2 in Hc.
    assert (watch ∈ filter (λ w, code_of w ∈ ids) rows) as Hf.
    { by apply list_elem_of_filter. }
    apply list_elem_of_lookup in Hf as [i Hi].
    destruct (Forall2_lookup_l _ _ _ _ _ Hc Hi) as (r & Hr & Hrec).
    unfold seller_price in Hrec. rewrite Hp in Hrec. injection Hrec as <-.
    by eapply list_elem_of_lookup_2.
Qed.

Lemma Market_create_prices_digitless_witness :
  ∃ e, (run Market.create_prices
          [row (VStr "A1") (VStr "5") (VStr "руб.")] ["A1"]).1 = inl e.
Proof.
  apply (proj1 (Market_create_prices_digitless
                  [row (VStr "A1") (VStr "5") (VStr "руб.")] ["A1"]
                  (row (VStr "A1") (VStr "5") (VStr "руб."))
                  ltac:(by left) ltac:(by left) ltac:(vm_compute; reflexivity))).
Defined.

(** X8. [price_conversion] is idempotent on strings: applied to its own
    result it gives that result again. *)
Theorem price_conversion_idempotent (s digits : string) :
  Seller.price_conversion (VStr s) = inr digits →
  Seller.price_conversion (VStr digits) = inr digits.
Proof.
  intros [before ->]%price_conversion_inv.
  pose proof (sub_non_digits_digits before) as Hd.
  unfold Seller.price_conversion. rewrite (digits_no_dot _ Hd). simpl.
  by rewrite (digits_sub_non_digits _ Hd).
Qed.

Lemma price_conversion_idempotent_witness :
  Seller.price_conversion (VStr "1234") = inr "1234".
Proof.
  apply (price_conversion_idempotent "1 234.56 ₽" "1234"). reflexivity.
Defined.

(** X9. [price_conversion] does not look past the first dot: appending a dot
    and anything at all to a string does not change the result, so the
    fractional part of a price is cut off, never rounded. *)
Theorem price_conversion_cuts_at_dot (s rest : string) :
  Seller.price_conversion (VStr (s +:+ "." +:+ rest)) =
  Seller.price_conversion (VStr s).
Proof.
  unfold Seller.price_conversion. by rewrite split_first_app.
Qed.

(** * Further properties of [divide] and of the upload functions *)

(** The chunks for a positive size, with all that the callers rely on. *)
Lemma divide_batches {A} (lst : list A) (size : Z) :
  1 ≤ size →
  ∃ chunks,
    Seller.divide lst size = inr chunks ∧
    concat chunks = lst ∧
    Forall (λ chunk, 1 ≤ Z.of_nat (length chunk) ≤ size) chunks ∧
    (Z.of_nat (length chunks) - 1) * size < Z.of_nat (length lst)
      ≤ Z.of_nat (length chunks) * size.
Proof.
  intros Hsize. eexists. split; [by apply divide_positive|].
  set (n := Z.to_nat size). set (c := ((length lst + n - 1) / n)%nat).
  destruct (ceil_div_bounds (length lst) n ltac:(lia)) as [Hlo Hhi].
  fold c in Hlo, Hhi. split_and!.
  - by apply chunks_concat.
  - apply Forall_fmap, Forall_forall. intros k Hk. simpl.
    apply elem_of_seq in Hk as [_ Hk]. rewrite length_take, length_drop.
    assert ((k + 1) * n ≤ c * n)%nat by (apply Nat.mul_le_mono_r; lia).
    lia.
  - rewrite length_fmap, length_seq. nia.
  - rewrite length_fmap, length_seq. nia.
Qed.

(** X10. For a size of at least 1, [divide] gives as many chunks as it takes
    to hold the list and no more: with [k] chunks, [k - 1] chunks of that size
    are too few and [k] are enough.  So the number of requests an upload sends
    is the length of the list divided by the batch size, rounded up. *)
Theorem divide_count {A} (lst : list A) (size : Z) :
  1 ≤ size →
  ∃ chunks,
    Seller.divide lst size = inr chunks ∧
    (Z.of_nat (length chunks) - 1) * size < Z.of_nat (length lst)
      ≤ Z.of_nat (length chunks) * size.
Proof.
  intros Hsize.
  destruct (divide_batches lst size Hsize) as (chunks & Hd & _ & _ & Hc).
  by exists chunks.
Qed.

Lemma divide_count_witness :
  ∃ chunks,
    Seller.divide (many_ids 7) 3 = inr chunks ∧
    (Z.of_nat (length chunks) - 1) * 3 < Z.of_nat (length (many_ids 7))
      ≤ Z.of_nat (length chunks) * 3.
Proof. apply (divide_count (many_ids 7) 3). lia. Defined.

Section submit.
Context {Req : Type} (srv : server Req).

(** One submission: send, [raise_for_status], [json]. *)
Lemma submit_accepted (req : Req) log :
  accepted (srv log req) →
  (response ← send srv req; _ ← raise_for_status response; json response) log
  = (inr tt, log ++ [req]).
Proof.
  intros (r & Hr & Hstatus & Hjson). unfold send, raise_for_status, json.
  unfold_M. rewrite Hr. rewrite decide_False by done. simpl. by rewrite Hjson.
Qed.

Lemma submit_logs (req : Req) log :
  ((response ← send srv req; _ ← raise_for_status response; json response) log).2
  = log ++ [req].
Proof.
  unfold send, raise_for_status, json. unfold_M.
  destruct (srv log req) as [e|r]; [done|].
  case_decide; [done|]. simpl. by destruct (body_is_json r).
Qed.
End submit.

(** A loop over batches sends a first part of them, whatever happens. *)
Lemma upload_loop_prefix {Req R} (update : list R → M (list Req) unit)
    (wrap : list R → Req) :
  (∀ b log, (update b log).2 = log ++ [wrap b]) →
  ∀ batches log, ∃ k,
    (for_in batches tt (λ _ b, update b) log).2 = log ++ (wrap <$> take k batches).
Proof.
  intros Hlogs. induction batches as [|b0 bs IH]; intros log.
  - exists 0%nat. simpl. by rewrite app_nil_r.
  - simpl. unfold mbind, M_bind. pose proof (Hlogs b0 log) as Hlog.
    destruct (update b0 log) as [[e|[]] log']; simpl in *; subst log'.
    + by exists 1%nat.
    + destruct (IH (log ++ [wrap b0])) as [k ->]. exists (S k).
      by rewrite <-app_assoc.
Qed.

(** The filter at the end of [Market.upload_stocks], on records that have a
    first item. *)
Lemma Market_not_empty_loop (stocks kept : list Market.stock_record)
    (log : list Market.request) :
  Forall (λ r, ∃ c, Market.first_count r = inr c) stocks →
  for_in stocks kept (λ kept r,
    c ← lift (Market.first_count r);
    mret (if decide (c ≠ 0) then kept ++ [r] else kept)) log =
  (inr (kept ++ filter (λ r, Market.first_count r ≠ inr 0) stocks), log).
Proof.
  set (body := λ (kept : list Market.stock_record) r, _).
  revert kept. induction stocks as [|r stocks IH]; intros kept Hall.
  - simpl. unfold_M. by rewrite app_nil_r.
  - apply Forall_cons in Hall as [[c Hc] Hall]. cbn [for_in].
    assert (body kept r log =
            (inr (if decide (c ≠ 0) then kept ++ [r] else kept), log)) as Hb.
    { subst body. unfold_M. by rewrite Hc. }
    unfold mbind at 1, M_bind at 1. rewrite Hb, IH by done.
    destruct (decide (c ≠ 0)) as [Hne|Heq].
    + rewrite filter_cons_True by (rewrite Hc; congruence).
      by rewrite <-app_assoc.
    + rewrite filter_cons_False; [done|]. rewrite Hc.
      intros Hn. apply Heq. intros ->. done.
Qed.

(** The builtin [filter] with a test that decides a property. *)
Lemma List_filter_decide {A} (f : A → bool) (P : A → Prop)
    `{!∀ x, Decision (P x)} (l : list A) :
  (∀ x, f x = true ↔ P x) → List.filter f l = filter P l.
Proof.
  intros Hf. induction l as [|x l IH]; [done|]. simpl.
  destruct (f x) eqn:Hx.
  - rewrite filter_cons_True by by apply Hf. by rewrite IH.
  - rewrite filter_cons_False; [done|]. rewrite <-Hf. congruence.
Qed.

(** X11. [upload_stocks], when the remote side accepts every request: the
    stock records are sent in their order, one request for each batch
    [divide] cuts, of 1 to 100 records (seller.py) or 1 to 2000 records
    (market.py), each record in exactly one request; the result is the pair
    of the records with a non-zero stock, in their order, and all records.
    In market.py every record has exactly one item, so the filter reads the
    count of that item and never fails. *)
Theorem upload_stocks_all_sent :
  (∀ srv get_offer_ids rows log0 ids log1 stocks,
     (∀ log req, accepted (srv log req)) →
     get_offer_ids log0 = (inr ids, log1) →
     (run Seller.create_stocks rows ids).1 = inr stocks →
     ∃ batches,
       Seller.divide stocks 100 = inr batches ∧
       Seller.upload_stocks srv get_offer_ids rows log0 =
         (inr (filter (λ r, Seller.stock r ≠ 0) stocks, stocks),
          log1 ++ (Seller.ImportStocks <$> batches)) ∧
       concat batches = stocks ∧
       Forall (λ b, 1 ≤ Z.of_nat (length b) ≤ 100) batches) ∧
  (∀ srv get_offer_ids date rows warehouse_id log0 ids log1 stocks,
     (∀ log req, accepted (srv log req)) →
     get_offer_ids log0 = (inr ids, log1) →
     (run (Market.create_stocks date warehouse_id) rows ids).1 = inr stocks →
     ∃ batches,
       Seller.divide stocks 2000 = inr batches ∧
       Market.upload_stocks srv get_offer_ids date rows warehouse_id log0 =
         (inr (filter (λ r, Market.first_count r ≠ inr 0) stocks, stocks),
          log1 ++ (Market.PutStocks <$> batches)) ∧
       concat batches = stocks ∧
       Forall (λ b, 1 ≤ Z.of_nat (length b) ≤ 2000) batches ∧
       Forall (λ r, ∃ item, Market.items r = [item] ∧
                            Market.first_count r = inr (Market.count item))
              stocks).
Proof.
  split.
  - intros srv get_offer_ids rows log0 ids log1 stocks Hsrv Hget Hstocks.
    destruct (divide_batches stocks 100 ltac:(lia))
      as (batches & Hdiv & Hconcat & Hsizes & _).
    exists batches. split_and!; [done| |done|done].
    unfold Seller.upload_stocks. unfold mbind at 1 2 3 4, M_bind.
    rewrite Hget. unfold run in Hstocks. unfold lift at 1 2.
    rewrite Hstocks, Hdiv.
    rewrite (upload_loop_all_sent (Seller.update_stocks srv)
               Seller.ImportStocks (Seller_update_stocks_logs srv)).
    + unfold mret, M_ret. do 2 f_equal. f_equal.
      apply List_filter_decide. intros r.
      by rewrite negb_true_iff, Z.eqb_neq.
    + intros i b _. unfold Seller.update_stocks.
      by rewrite submit_accepted.
  - intros srv get_offer_ids date rows warehouse_id log0 ids log1 stocks
      Hsrv Hget Hstocks.
    destruct (divide_batches stocks 2000 ltac:(lia))
      as (batches & Hdiv & Hconcat & Hsizes & _).
    assert (Hitems : Forall (λ r, ∃ item, Market.items r = [item] ∧
                        Market.first_count r = inr (Market.count item)) stocks).
    { apply Forall_forall. intros r Hr.
      destruct (run (Market.create_stocks date warehouse_id) rows ids)
        as [res st'] eqn:Hrun. simpl in Hstocks. subst res.
      destruct (Market_stock_origin _ _ _ _ _ _ Hrun r Hr)
        as [_ (stock & Hi & _)].
      eexists. split; [done|]. unfold Market.first_count. by rewrite Hi. }
    exists batches. split_and!; [done| |done|done|done].
    unfold Market.upload_stocks. unfold mbind at 1 2 3 4, M_bind.
    rewrite Hget. unfold run in Hstocks. unfold lift at 1 2.
    rewrite Hstocks, Hdiv.
    rewrite (upload_loop_all_sent (Market.update_stocks srv)
               Market.PutStocks (Market_update_stocks_logs srv)).
    + unfold mbind, M_bind.
      rewrite (Market_not_empty_loop stocks []); [done|].
      eapply Forall_impl; [exact Hitems|].
      intros r (item & _ & Hc). by eexists.
    + intros i b _. unfold Market.update_stocks. by rewrite submit_accepted.
Qed.

Lemma upload_stocks_all_sent_witness :
  ∃ batches,
    Seller.divide
      [Seller.StockRecord "A1" 100; Seller.StockRecord "A2" 0;
       Seller.StockRecord "A3" 0] 100 = inr batches ∧
    Seller.upload_stocks (λ _ _, inr (Response 200 true))
      (mret scenario_ids) scenario_rows [] =
      (inr (filter (λ r, Seller.stock r ≠ 0)
              [Seller.StockRecord "A1" 100; Seller.StockRecord "A2" 0;
               Seller.StockRecord "A3" 0],
            [Seller.StockRecord "A1" 100; Seller.StockRecord "A2" 0;
             Seller.StockRecord "A3" 0]),
       [] ++ (Seller.ImportStocks <$> batches)) ∧
    concat batches =
      [Seller.StockRecord "A1" 100; Seller.StockRecord "A2" 0;
       Seller.StockRecord "A3" 0] ∧
    Forall (λ b, 1 ≤ Z.of_nat (length b) ≤ 100) batches.
Proof.
  apply (proj1 upload_stocks_all_sent
           (λ _ _, inr (Response 200 true)) (mret scenario_ids)
           scenario_rows [] scenario_ids []).
  - intros log req. eexists. split; [reflexivity|].
    split; [simpl; lia|reflexivity].
  - reflexivity.
  - vm_compute. reflexivity.
Defined.

(** X12. [upload_prices], when the remote side accepts every request: the
    price records are sent in their order, cut into requests of 1 to 1000
    records (seller.py) or 1 to 500 records (market.py), each record in
    exactly one request, and the function returns all price records. *)
Theorem upload_prices_all_sent :
  (∀ srv get_offer_ids rows log0 ids log1 prices,
     (∀ log req, accepted (srv log req)) →
     get_offer_ids log0 = (inr ids, log1) →
     (run Seller.create_prices rows ids).1 = inr prices →
     ∃ batches,
       SellerApp.upload_prices srv get_offer_ids rows log0 =
         (inr prices, log1 ++ (Seller.ImportPrices <$> batches)) ∧
       concat batches = prices ∧
       Forall (λ b, 1 ≤ Z.of_nat (length b) ≤ 1000) batches) ∧
  (∀ srv get_offer_ids rows log0 ids log1 prices,
     (∀ log req, accepted (srv log req)) →
     get_offer_ids log0 = (inr ids, log1) →
     (run Market.create_prices rows ids).1 = inr prices →
     ∃ batches,
       MarketApp.upload_prices srv get_offer_ids rows log0 =
         (inr prices, log1 ++ (Market.PostPrices <$> batches)) ∧
       concat batches = prices ∧
       Forall (λ b, 1 ≤ Z.of_nat (length b) ≤ 500) batches).
Proof.
  split.
  - intros srv get_offer_ids rows log0 ids log1 prices Hsrv Hget Hprices.
    destruct (divide_batches prices 1000 ltac:(lia))
      as (batches & Hdiv & Hconcat & Hsizes & _).
    exists batches. split_and!; [|done|done].
    unfold SellerApp.upload_prices. unfold mbind at 1 2 3 4, M_bind.
    rewrite Hget. unfold run in Hprices. unfold lift at 1 2.
    rewrite Hprices, Hdiv.
    rewrite (upload_loop_all_sent (Seller.update_price srv) Seller.ImportPrices);
      [done|intros; apply submit_logs|].
    intros i b _. unfold Seller.update_price. by rewrite submit_accepted.
  - intros srv get_offer_ids rows log0 ids log1 prices Hsrv Hget Hprices.
    destruct (divide_batches prices 500 ltac:(lia))
      as (batches & Hdiv & Hconcat & Hsizes & _).
    exists batches. split_and!; [|done|done].
    unfold MarketApp.upload_prices. unfold mbind at 1 2 3 4, M_bind.
    rewrite Hget. unfold run in Hprices. unfold lift at 1 2.
    rewrite Hprices, Hdiv.
    rewrite (upload_loop_all_sent (Market.update_price srv) Market.PostPrices);
      [done|intros; apply submit_logs|].
    intros i b _. unfold Market.update_price. by rewrite submit_accepted.
Qed.

Lemma upload_prices_all_sent_witness :
  ∃ batches,
    SellerApp.upload_prices (λ _ _, inr (Response 200 true))
      (mret scenario_ids) scenario_rows [] =
      (inr [Seller.PriceRecord "UNKNOWN" "RUB" "A1" "0" "500";
            Seller.PriceRecord "UNKNOWN" "RUB" "A2" "0" "1200"],
       [] ++ (Seller.ImportPrices <$> batches)) ∧
    concat batches =
      [Seller.PriceRecord "UNKNOWN" "RUB" "A1" "0" "500";
       Seller.PriceRecord "UNKNOWN" "RUB" "A2" "0" "1200"] ∧
    Forall (λ b, 1 ≤ Z.of_nat (length b) ≤ 1000) batches.
Proof.
  apply (proj1 upload_prices_all_sent
           (λ _ _, inr (Response 200 true)) (mret scenario_ids)
           scenario_rows [] scenario_ids []).
  - intros log req. eexists. split; [reflexivity|].
    split; [simpl; lia|reflexivity].
  - reflexivity.
  - vm_compute. reflexivity.
Defined.

(** X13. [upload_prices] of either module, when the submission of batch
    number [N] (counted from 0) is the first to raise: the batches up to and
    including it were sent, once each and in order, no later batch is sent,
    and [upload_prices] raises that exception instead of returning the
    prices. *)
Theorem upload_prices_stops_at_failed_batch :
  (∀ srv get_offer_ids rows log0 ids log1 prices batches N e,
     get_offer_ids log0 = (inr ids, log1) →
     (run Seller.create_prices rows ids).1 = inr prices →
     Seller.divide prices 1000 = inr batches →
     (∀ i b, (i < N)%nat → batches !! i = Some b →
        (Seller.update_price srv b
           (log1 ++ (Seller.ImportPrices <$> take i batches))).1 = inr tt) →
     (∃ b, batches !! N = Some b ∧
        (Seller.update_price srv b
           (log1 ++ (Seller.ImportPrices <$> take N batches))).1 = inl e) →
     SellerApp.upload_prices srv get_offer_ids rows log0 =
     (inl e, log1 ++ (Seller.ImportPrices <$> take (S N) batches))) ∧
  (∀ srv get_offer_ids rows log0 ids log1 prices batches N e,
     get_offer_ids log0 = (inr ids, log1) →
     (run Market.create_prices rows ids).1 = inr prices →
     Seller.divide prices 500 = inr batches →
     (∀ i b, (i < N)%nat → batches !! i = Some b →
        (Market.update_price srv b
           (log1 ++ (Market.PostPrices <$> take i batches))).1 = inr tt) →
     (∃ b, batches !! N = Some b ∧
        (Market.update_price srv b
           (log1 ++ (Market.PostPrices <$> take N batches))).1 = inl e) →
     MarketApp.upload_prices srv get_offer_ids rows log0 =
     (inl e, log1 ++ (Market.PostPrices <$> take (S N) batches))).
Proof.
  split.
  - intros srv get_offer_ids rows log0 ids log1 prices batches N e
      Hget Hprices Hdiv Hok Hfail.
    unfold SellerApp.upload_prices. unfold mbind at 1 2 3 4, M_bind.
    rewrite Hget. unfold run in Hprices. unfold lift at 1 2.
    rewrite Hprices, Hdiv.
    rewrite (upload_loop_stops (Seller.update_price srv) Seller.ImportPrices
               ltac:(intros; apply submit_logs) batches log1 N e Hok Hfail).
    done.
  - intros srv get_offer_ids rows log0 ids log1 prices batches N e
      Hget Hprices Hdiv Hok Hfail.
    unfold MarketApp.upload_prices. unfold mbind at 1 2 3 4, M_bind.
    rewrite Hget. unfold run in Hprices. unfold lift at 1 2.
    rewrite Hprices, Hdiv.
    rewrite (upload_loop_stops (Market.update_price srv) Market.PostPrices
               ltac:(intros; apply submit_logs) batches log1 N e Hok Hfail).
    done.
Qed.

Lemma upload_prices_stops_at_failed_batch_witness :
  SellerApp.upload_prices (failing_server 0 (inr (Response 503 true)))
    (mret scenario_ids) scenario_rows [] =
  (inl HTTPError,
   [] ++ (Seller.ImportPrices <$>
            take 1 [[Seller.PriceRecord "UNKNOWN" "RUB" "A1" "0" "500";
                     Seller.PriceRecord "UNKNOWN" "RUB" "A2" "0" "1200"]])).
Proof.
  apply (proj1 upload_prices_stops_at_failed_batch
           (failing_server 0 (inr (Response 503 true))) (mret scenario_ids)
           scenario_rows [] scenario_ids []
           [Seller.PriceRecord "UNKNOWN" "RUB" "A1" "0" "500";
            Seller.PriceRecord "UNKNOWN" "RUB" "A2" "0" "1200"]
           _ 0%nat HTTPError).
  - reflexivity.
  - vm_compute. reflexivity.
  - vm_compute. reflexivity.
  - intros i b Hi. lia.
  - eexists. split; [reflexivity|]. vm_compute. reflexivity.
Defined.

(** * [main] *)

Lemma bind_run {S A B} (m : M S A) (f : A → M S B) (s : S) :
  (m ≫= f) s =
  match m s with
  | (inl e, s') => (inl e, s')
  | (inr a, s') => f a s'
  end.
Proof. reflexivity. Qed.

Lemma bind_lift_run {S A B} (r : pyexc + A) (f : A → M S B) (s : S) :
  (lift r ≫= f) s = match r with inl e => (inl e, s) | inr a => f a s end.
Proof. by destruct r. Qed.

Lemma handle_state {S} (body : M S unit) (s : S) :
  (handle body s).2 = (body s).2.
Proof.
  unfold handle. destruct (body s) as [[e|u] s']; [|done]. by destruct e.
Qed.

(** With no listed row the loop of [create_prices] collects nothing and reads
    no price. *)
Lemma collect_prices_no_match {R} (f : dict → pyexc + R) rows (ids : list string) :
  (∀ watch, watch ∈ rows → code_of watch ∉ ids) →
  collect_prices f rows ids = inr [].
Proof.
  induction rows as [|watch rows IH]; intros Hnone; [done|]. simpl.
  assert (contains (code_of watch) ids = false) as ->.
  { apply contains_false, Hnone. by left. }
  apply IH. intros w Hw. apply Hnone. by right.
Qed.

(** What [create_prices] makes of the list [create_stocks] has used. *)
Lemma Seller_prices_after_stocks rows ids stocks st1 :
  NoDup ids →
  Seller.create_stocks (Store ids rows) = (inr stocks, st1) →
  Seller.create_prices st1 = (inr [], st1).
Proof.
  intros Hids Hrun. change (run Seller.create_stocks rows ids = (inr stocks, st1)) in Hrun.
  apply Seller_create_stocks_inv in Hrun as (ps & ids' & Hrec & -> & _).
  change (run Seller.create_prices rows ids' = (inr [], Store ids' rows)).
  rewrite Seller_create_prices_run, collect_prices_no_match; [done|].
  intros watch Hw Hin.
  rewrite (reconcile_stocks_residual _ _ _ _ Hids Hrec) in Hin.
  apply list_elem_of_filter in Hin as [Hnin _].
  apply Hnin. by apply list_elem_of_fmap_2.
Qed.

(** ** Reconciliation: [create_stocks], then [create_prices] *)

(** The record of [Seller.create_prices] can be built exactly for a price
    cell that holds a string. *)
Lemma seller_price_returns watch :
  (∃ r, seller_price watch = inr r) ↔ ∃ text, price_of watch = VStr text.
Proof.
  unfold seller_price, Seller.price_conversion. split.
  - intros [r Hr].
    destruct (price_of watch) as [|n|text]; [done|done|by exists text].
  - intros [text ->].
    destruct (split_dot_first text) as (before & pieces & Hs & _).
    rewrite Hs. by eexists.
Qed.

(** C1. For inventory rows with distinct codes and an offer-id list with
    distinct ids.
    [create_stocks] returns exactly when the quantity rule accepts every row
    whose code is on the list, and then its records carry exactly the ids of
    the list it was given, one record per id; a record whose id is the code
    of a row carries that row's normalised quantity, a record whose id is no
    row's code carries 0.
    [create_prices], handed a list that [create_stocks] has not used, returns
    exactly when the price of every row whose code is on the list is a
    string, and then its records carry exactly the row codes that are on the
    list, in row order.
    [main] of seller.py does not call it so: it hands [create_prices] the
    list [create_stocks] has just consumed.  Then [create_prices] returns no
    record at all, and as soon as one row's code was on the original list the
    price records do not cover the codes the original list shares with the
    inventory. *)
Theorem reconciler_outputs (rows : list dict) (ids : list string) :
  NoDup (code_of <$> rows) →
  NoDup ids →
  ((∃ stocks st', run Seller.create_stocks rows ids = (inr stocks, st')) ↔
   (∀ watch, watch ∈ rows → code_of watch ∈ ids →
      ∃ stock, normalize_quantity (quantity_of watch) = inr stock)) ∧
  (∀ stocks st',
      run Seller.create_stocks rows ids = (inr stocks, st') →
      Seller.offer_id <$> stocks ≡ₚ ids ∧
      NoDup (Seller.offer_id <$> stocks) ∧
      length stocks = length ids ∧
      (∀ watch r, watch ∈ rows → r ∈ stocks →
         Seller.offer_id r = code_of watch →
         normalize_quantity (quantity_of watch) = inr (Seller.stock r)) ∧
      (∀ r, r ∈ stocks → Seller.offer_id r ∉ code_of <$> rows →
         Seller.stock r = 0) ∧
      Seller.create_prices st' = (inr [], st') ∧
      (∀ prices st'',
         Seller.create_prices st' = (inr prices, st'') →
         (∃ watch, watch ∈ rows ∧ code_of watch ∈ ids) →
         Seller.price_offer_id <$> prices ≠
           filter (λ c, c ∈ ids) (code_of <$> rows))) ∧
  ((∃ prices st', run Seller.create_prices rows ids = (inr prices, st')) ↔
   (∀ watch, watch ∈ rows → code_of watch ∈ ids →
      ∃ text, price_of watch = VStr text)) ∧
  (∀ prices st',
      run Seller.create_prices rows ids = (inr prices, st') →
      Seller.price_offer_id <$> prices =
        filter (λ c, c ∈ ids) (code_of <$> rows) ∧
      NoDup (Seller.price_offer_id <$> prices) ∧
      (∀ c, c ∈ Seller.price_offer_id <$> prices ↔
            c ∈ code_of <$> rows ∧ c ∈ ids)).
Proof.
  intros Hcodes Hids. split_and!.
  - split.
    + intros (stocks & st' & (ps & ids' & Hrec & _)%Seller_create_stocks_inv).
      by eapply reconcile_stocks_reads_listed.
    + apply Seller_create_stocks_returns.
  - intros stocks st' Hrun.
    pose proof (Seller_prices_after_stocks _ _ _ _ Hids Hrun) as Hmain.
    apply Seller_create_stocks_inv in Hrun as (ps & ids' & Hrec & -> & ->).
    pose proof (reconcile_stocks_Permutation _ _ _ _ Hrec) as Hperm.
    pose proof (reconcile_stocks_matched _ _ _ _ Hrec) as Hmatched.
    pose proof (reconcile_stocks_residual _ _ _ _ Hids Hrec) as Hres.
    rewrite Forall_forall in Hmatched.
    assert (Hcases : ∀ r,
      r ∈ ((λ p, Seller.StockRecord p.1 p.2) <$> ps) ++
          ((λ offer_id, Seller.StockRecord offer_id 0) <$> ids') →
      (∃ watch, watch ∈ rows ∧ code_of watch = Seller.offer_id r ∧
         normalize_quantity (quantity_of watch) = inr (Seller.stock r)) ∨
      ((Seller.offer_id r ∉ code_of <$> rows) ∧ Seller.stock r = 0)).
    { intros r [Hr|Hr]%elem_of_app.
      - apply list_elem_of_fmap in Hr as (p & -> & Hp). left.
        by apply Hmatched.
      - apply list_elem_of_fmap in Hr as (c & -> & Hc). right. simpl.
        rewrite Hres in Hc. apply list_elem_of_filter in Hc as [Hc _].
        done. }
    rewrite Seller_stock_ids. split_and!.
    + done.
    + by rewrite Hperm.
    + rewrite <-(length_fmap Seller.offer_id), Seller_stock_ids.
      by rewrite Hperm.
    + intros watch r Hw Hr Heq.
      destruct (Hcases r Hr) as [(w & Hw' & Hcode & Hq)|[Hnin _]].
      * assert (w = watch) as ->; [|done].
        apply (NoDup_fmap_eq code_of rows); [done..|congruence].
      * destruct Hnin. rewrite Heq. by apply list_elem_of_fmap_2.
    + intros r Hr Hnin.
      destruct (Hcases r Hr) as [(w & Hw' & Hcode & Hq)|[_ ?]]; [|done].
      destruct Hnin. rewrite <-Hcode. by apply list_elem_of_fmap_2.
    + done.
    + intros prices st''. rewrite Hmain. intros [= <- _] (watch & Hw & Hin) Heq.
      assert (code_of watch ∈ filter (λ c, c ∈ ids) (code_of <$> rows)) as Hc.
      { apply list_elem_of_filter. split; [done|].
        by apply list_elem_of_fmap_2. }
      rewrite <-Heq in Hc. by apply elem_of_nil in Hc.
  - rewrite Seller_create_prices_run. split.
    + intros (prices & st' & [= Hc _]) watch Hw Hin.
      apply seller_price_returns.
      apply (proj1 (collect_prices_returns_iff seller_price rows ids));
        [by eexists|done..].
    + intros Hall.
      destruct (proj2 (collect_prices_returns_iff seller_price rows ids))
        as [rs ->]; [|by eexists _, _].
      intros watch Hw Hin. apply seller_price_returns. by apply Hall.
  - intros prices st'. rewrite Seller_create_prices_run.
    intros [= Hc _].
    pose proof (collect_prices_ids _ Seller.price_offer_id _ _ _
                  seller_price_key Hc) as Hkeys.
    rewrite Hkeys. split; [done|]. split; [by apply NoDup_filter|].
    intros c. rewrite list_elem_of_filter. tauto.
Qed.

Lemma reconciler_outputs_witness :
  run Seller.create_stocks scenario_rows scenario_ids =
    (inr [Seller.StockRecord "A1" 100; Seller.StockRecord "A2" 0;
          Seller.StockRecord "A3" 0],
     Store ["A3"] scenario_rows) ∧
  Seller.offer_id <$>
    [Seller.StockRecord "A1" 100; Seller.StockRecord "A2" 0;
     Seller.StockRecord "A3" 0] ≡ₚ scenario_ids ∧
  Seller.create_prices (Store ["A3"] scenario_rows) =
    (inr [], Store ["A3"] scenario_rows) ∧
  Seller.price_offer_id <$> [] ≠
    filter (λ c, c ∈ scenario_ids) (code_of <$> scenario_rows) ∧
  run Seller.create_prices scenario_rows scenario_ids =
    (inr [Seller.PriceRecord "UNKNOWN" "RUB" "A1" "0" "500";
          Seller.PriceRecord "UNKNOWN" "RUB" "A2" "0" "1200"],
     Store scenario_ids scenario_rows) ∧
  Seller.price_offer_id <$>
    [Seller.PriceRecord "UNKNOWN" "RUB" "A1" "0" "500";
     Seller.PriceRecord "UNKNOWN" "RUB" "A2" "0" "1200"] =
  filter (λ c, c ∈ scenario_ids) (code_of <$> scenario_rows).
Proof.
  assert (Hrows : NoDup (code_of <$> scenario_rows)).
  { apply (bool_decide_unpack _). vm_compute. reflexivity. }
  assert (Hids : NoDup scenario_ids).
  { apply (bool_decide_unpack _). vm_compute. reflexivity. }
  assert (Hrun : run Seller.create_stocks scenario_rows scenario_ids =
            (inr [Seller.StockRecord "A1" 100; Seller.StockRecord "A2" 0;
                  Seller.StockRecord "A3" 0],
             Store ["A3"] scenario_rows)).
  { vm_compute. reflexivity. }
  assert (Hfresh : run Seller.create_prices scenario_rows scenario_ids =
            (inr [Seller.PriceRecord "UNKNOWN" "RUB" "A1" "0" "500";
                  Seller.PriceRecord "UNKNOWN" "RUB" "A2" "0" "1200"],
             Store scenario_ids scenario_rows)).
  { vm_compute. reflexivity. }
  destruct (reconciler_outputs scenario_rows scenario_ids Hrows Hids)
    as (_ & Hstocks & _ & Hprices).
  destruct (Hstocks _ _ Hrun) as (Hperm & _ & _ & _ & _ & Hmain & Hdiff).
  split_and!; [done|done|done| |done|].
  - apply (Hdiff _ _ Hmain).
    exists (row (VStr "A1") (VStr ">10") (VStr "500.00")).
    split; [by left|]. by left.
  - by apply (Hprices _ _ Hfresh).
Defined.

(** ** The requests [main] sends *)

(** X14. [main] of seller.py with distinct offer ids never sends a price:
    [create_prices] is handed the very list [create_stocks] has just emptied
    of every id that matches an inventory row, so whenever [create_stocks]
    returns, [create_prices] returns no record at all, and every request
    [main] sends is a stock import. *)
Theorem Seller_main_sends_no_prices (srv : server Seller.request)
    (ids : list string) (rows : list dict) (log : list Seller.request) :
  NoDup ids →
  (∀ stocks st1,
      Seller.create_stocks (Store ids rows) = (inr stocks, st1) →
      Seller.create_prices st1 = (inr [], st1)) ∧
  (∃ sent,
      (SellerApp.main srv (inr ids) (inr rows) log).2 =
      log ++ (Seller.ImportStocks <$> sent)).
Proof.
  intros Hids. split; [intros; by eapply Seller_prices_after_stocks|].
  unfold SellerApp.main. rewrite handle_state. unfold SellerApp.main_body.
  rewrite !bind_lift_run. cbv zeta.
  destruct (Seller.create_stocks (Store ids rows)) as [[e|stocks] st1] eqn:Hrun;
    cbn [fst snd].
  { exists []. simpl. by rewrite app_nil_r. }
  rewrite bind_lift_run.
  destruct (divide_batches stocks 100 ltac:(lia)) as (batches & Hdiv & _).
  rewrite Hdiv, bind_run.
  destruct (upload_loop_prefix (Seller.update_stocks srv) Seller.ImportStocks
              (Seller_update_stocks_logs srv) batches log) as [k Hk].
  destruct (for_in batches tt _ log) as [[e|[]] log'] eqn:Hloop;
    simpl in Hk; subst log'.
  { by exists (take k batches). }
  rewrite (Seller_prices_after_stocks _ _ _ _ Hids Hrun).
  rewrite !bind_lift_run. exists (take k batches). done.
Qed.

Lemma Seller_main_sends_no_prices_witness :
  ∃ sent,
    (SellerApp.main (λ _ _, inr (Response 200 true)) (inr scenario_ids)
       (inr scenario_rows) []).2 = [] ++ (Seller.ImportStocks <$> sent).
Proof.
  apply (Seller_main_sends_no_prices (λ _ _, inr (Response 200 true))
           scenario_ids scenario_rows []).
  apply (bool_decide_unpack _). vm_compute. reflexivity.
Defined.

Lemma Market_campaign_state srv fetched date warehouse_id rows log :
  ∃ sent,
    (MarketApp.campaign srv fetched date warehouse_id rows log).2 =
    log ++ (Market.PutStocks <$> sent).
Proof.
  unfold MarketApp.campaign. rewrite bind_lift_run.
  destruct fetched as [e|ids].
  { exists []. simpl. by rewrite app_nil_r. }
  rewrite bind_lift_run.
  destruct (Market.create_stocks date warehouse_id (Store ids rows)).1
    as [e|stocks].
  { exists []. simpl. by rewrite app_nil_r. }
  destruct (divide_batches stocks 2000 ltac:(lia)) as (batches & Hdiv & _).
  rewrite bind_lift_run, Hdiv, bind_run.
  destruct (upload_loop_prefix (Market.update_stocks srv) Market.PutStocks
              (Market_update_stocks_logs srv) batches log) as [k Hk].
  destruct (for_in batches tt _ log) as [[e|[]] log'] eqn:Hloop;
    simpl in Hk; subst log'; by exists (take k batches).
Qed.

(** X15. [main] of market.py sends stock requests and nothing else: the two
    calls of [upload_prices] build coroutines that are never awaited, so
    whatever the inventory, the offer ids and the answers of the remote side,
    no price request leaves [main]. *)
Theorem Market_main_sends_no_prices
    (srv_fbs srv_dbs : server Market.request)
    (fetched_fbs fetched_dbs : pyexc + list string)
    (date_fbs date_dbs warehouse_fbs_id warehouse_dbs_id : string)
    (downloaded : pyexc + list dict) (log : list Market.request) :
  ∃ sent,
    (MarketApp.main srv_fbs srv_dbs fetched_fbs fetched_dbs date_fbs date_dbs
       warehouse_fbs_id warehouse_dbs_id downloaded log).2 =
    log ++ (Market.PutStocks <$> sent).
Proof.
  unfold MarketApp.main. destruct downloaded as [e|rows].
  { exists []. simpl. by rewrite app_nil_r. }
  match goal with
  | |- context [handle ?body log] =>
      pose proof (handle_state body log) as Hh;
      destruct (handle body log) as [line log'] eqn:Hhandle
  end.
  simpl in Hh |- *. subst log'. rewrite bind_run.
  destruct (Market_campaign_state srv_fbs fetched_fbs date_fbs
              warehouse_fbs_id rows log) as [sent1 H1].
  destruct (MarketApp.campaign srv_fbs _ _ _ _ log) as [[e|[]] log1];
    simpl in H1; subst log1.
  { by exists sent1. }
  destruct (Market_campaign_state srv_dbs fetched_dbs date_dbs
              warehouse_dbs_id rows (log ++ (Market.PutStocks <$> sent1)))
    as [sent2 H2].
  rewrite H2. exists (sent1 ++ sent2). by rewrite fmap_app, app_assoc.
Qed.

(** * [get_offer_ids] *)

Section seller_fetch.
Import SellerApp.
Implicit Types (pages : list product_page) (fetch : get_product_list).

Lemma seller_loop_pages fetch pages T :
  (∀ i p, pages !! i = Some p → fetch i (seller_cursor pages i) = inr p) →
  Forall (λ p, total p = T) pages →
  T = Z.of_nat (length (concat (items <$> pages))) →
  ∀ rest seen fuel,
    pages = seen ++ rest →
    rest ≠ [] →
    Forall (λ p, items p ≠ []) (tail rest) →
    (length rest ≤ fuel)%nat →
    get_offer_ids_loop fuel fetch (length seen) (seller_cursor pages (length seen))
      (concat (items <$> seen)) =
    Some (inr (concat (items <$> pages))).
Proof.
  intros Hserved Htotal HT.
  induction rest as [|p rest IH]; intros seen fuel Hpages Hne Hitems Hfuel;
    [done|].
  destruct fuel as [|fuel]; [simpl in Hfuel; lia|]. simpl in Hfuel.
  assert (pages !! length seen = Some p) as Hp.
  { rewrite Hpages. by rewrite list_lookup_middle. }
  cbn [get_offer_ids_loop]. rewrite (Hserved _ _ Hp). cbv zeta.
  assert (total p = T) as ->.
  { rewrite Forall_forall in Htotal. apply Htotal.
    by eapply list_elem_of_lookup_2. }
  assert (concat (items <$> seen) ++ items p = concat (items <$> (seen ++ [p])))
    as Hacc.
  { rewrite fmap_app, concat_app. simpl. by rewrite app_nil_r. }
  destruct rest as [|q rest].
  - rewrite Hacc, <-Hpages. by rewrite decide_True.
  - rewrite decide_False.
    + rewrite Hacc.
      assert (last_id p = seller_cursor pages (length (seen ++ [p]))) as ->.
      { rewrite length_app. simpl. rewrite Nat.add_1_r. simpl. by rewrite Hp. }
      assert (S (length seen) = length (seen ++ [p])) as ->.
      { rewrite length_app. simpl. lia. }
      apply IH.
      * by rewrite <-app_assoc.
      * done.
      * simpl in Hitems. by apply Forall_cons in Hitems as [_ ?].
      * simpl in *. lia.
    + rewrite HT, Hpages, !fmap_app, !concat_app, !length_app. simpl.
      rewrite !length_app. simpl in Hitems.
      apply Forall_cons in Hitems as [Hq _].
      destruct (items q); [done|]. simpl. lia.
Qed.

Lemma seller_loop_stale fetch (acc : list product) :
  (∀ i lid, (0 < i)%nat →
     ∃ p, fetch i lid = inr p ∧ items p = [] ∧
          total p ≠ Z.of_nat (length acc)) →
  ∀ fuel calls lid, (0 < calls)%nat →
    get_offer_ids_loop fuel fetch calls lid acc = None.
Proof.
  intros Hstale. induction fuel as [|fuel IH]; intros calls lid Hcalls; [done|].
  simpl. destruct (Hstale calls lid Hcalls) as (p & -> & Hitems & Htotal).
  rewrite Hitems, app_nil_r. rewrite decide_False by done.
  apply IH. lia.
Qed.
End seller_fetch.

(** X16. [get_offer_ids] of seller.py on a catalogue served in pages: when
    every page announces the same total, that total is the number of items on
    all pages, each call carries the [last_id] of the page before it, and no
    page after the first is empty, the function returns the offer ids of all
    pages, in page order, after one call per page. *)
Theorem Seller_get_offer_ids_pages (fetch : SellerApp.get_product_list)
    (pages : list SellerApp.product_page) (T : Z) (fuel : nat) :
  pages ≠ [] →
  (∀ i p, pages !! i = Some p → fetch i (seller_cursor pages i) = inr p) →
  Forall (λ p, SellerApp.total p = T) pages →
  T = Z.of_nat (length (concat (SellerApp.items <$> pages))) →
  Forall (λ p, SellerApp.items p ≠ []) (tail pages) →
  (length pages ≤ fuel)%nat →
  SellerApp.get_offer_ids fuel fetch =
  Some (inr (SellerApp.product_offer_id <$> concat (SellerApp.items <$> pages))).
Proof.
  intros Hne Hserved Htotal HT Hitems Hfuel. unfold SellerApp.get_offer_ids.
  pose proof (seller_loop_pages fetch pages T Hserved Htotal HT pages [] fuel
                eq_refl Hne Hitems Hfuel) as Hloop.
  simpl in Hloop. by rewrite Hloop.
Qed.

Lemma Seller_get_offer_ids_pages_witness :
  SellerApp.get_offer_ids 2 (serve_pages two_pages) =
  Some (inr (SellerApp.product_offer_id <$>
               concat (SellerApp.items <$> two_pages))).
Proof.
  apply (Seller_get_offer_ids_pages (serve_pages two_pages) two_pages 3 2).
  - discriminate.
  - intros i p Hp. unfold serve_pages. by rewrite Hp.
  - by repeat constructor.
  - reflexivity.
  - by repeat constructor.
  - simpl. lia.
Defined.

(** X17. [get_offer_ids] of seller.py has no exit but the test
    [total == len(product_list)]: when the first page brings a number of
    items other than the total it announces and every later page is empty
    and still announces a total other than that number, the loop never ends,
    however many calls it is given. *)
Theorem Seller_get_offer_ids_never_returns (fetch : SellerApp.get_product_list)
    (first : SellerApp.product_page) :
  fetch 0%nat "" = inr first →
  SellerApp.total first ≠ Z.of_nat (length (SellerApp.items first)) →
  (∀ i lid, (0 < i)%nat →
     ∃ p, fetch i lid = inr p ∧ SellerApp.items p = [] ∧
          SellerApp.total p ≠ Z.of_nat (length (SellerApp.items first))) →
  ∀ fuel, SellerApp.get_offer_ids fuel fetch = None.
Proof.
  intros Hfirst Htotal Hstale fuel. unfold SellerApp.get_offer_ids.
  destruct fuel as [|fuel]; [done|]. simpl. rewrite Hfirst. simpl.
  rewrite decide_False by done.
  rewrite (seller_loop_stale fetch (SellerApp.items first) Hstale); [done|lia].
Qed.

Lemma Seller_get_offer_ids_never_returns_witness :
  SellerApp.get_offer_ids 50
    (λ i _, if decide (i = 0%nat)
            then inr (SellerApp.ProductPage [SellerApp.Product "A1"] 2 "c1")
            else inr (SellerApp.ProductPage [] 2 "c1")) = None.
Proof.
  apply (Seller_get_offer_ids_never_returns _
           (SellerApp.ProductPage [SellerApp.Product "A1"] 2 "c1")).
  - reflexivity.
  - simpl. lia.
  - intros i lid Hi. exists (SellerApp.ProductPage [] 2 "c1").
    rewrite decide_False by lia. split; [done|]. split; [done|]. simpl. lia.
Defined.

Section market_fetch.
Import MarketApp.
Implicit Types (pages : list mapping_page) (fetch : get_product_list).

Lemma market_loop_pages fetch pages :
  (∀ i p, pages !! i = Some p → fetch i (market_cursor pages i) = inr p) →
  (∀ i p, pages !! i = Some p →
     falsy (nextPageToken p) = bool_decide (S i = length pages)) →
  ∀ rest seen fuel,
    pages = seen ++ rest →
    rest ≠ [] →
    (length rest ≤ fuel)%nat →
    get_offer_ids_loop fuel fetch (length seen) (market_cursor pages (length seen))
      (concat (offerMappingEntries <$> seen)) =
    Some (inr (concat (offerMappingEntries <$> pages))).
Proof.
  intros Hserved Htokens.
  induction rest as [|p rest IH]; intros seen fuel Hpages Hne Hfuel; [done|].
  destruct fuel as [|fuel]; [simpl in Hfuel; lia|]. simpl in Hfuel.
  assert (pages !! length seen = Some p) as Hp.
  { rewrite Hpages. by rewrite list_lookup_middle. }
  cbn [get_offer_ids_loop]. rewrite (Hserved _ _ Hp). cbv zeta.
  rewrite (Htokens _ _ Hp).
  assert (concat (offerMappingEntries <$> seen) ++ offerMappingEntries p =
          concat (offerMappingEntries <$> (seen ++ [p]))) as Hacc.
  { rewrite fmap_app, concat_app. simpl. by rewrite app_nil_r. }
  destruct rest as [|q rest].
  - rewrite bool_decide_eq_true_2.
    + by rewrite Hacc, <-Hpages.
    + rewrite Hpages, length_app. simpl. lia.
  - rewrite bool_decide_eq_false_2.
    + rewrite Hacc.
      assert (token_text (nextPageToken p) =
              market_cursor pages (length (seen ++ [p]))) as ->.
      { rewrite length_app. simpl. rewrite Nat.add_1_r. simpl. by rewrite Hp. }
      assert (S (length seen) = length (seen ++ [p])) as ->.
      { rewrite length_app. simpl. lia. }
      apply IH; [by rewrite <-app_assoc|done|simpl in *; lia].
    + rewrite Hpages, length_app. simpl. lia.
Qed.

Lemma market_loop_endless fetch :
  (∀ i page, ∃ p, fetch i page = inr p ∧ falsy (nextPageToken p) = false) →
  ∀ fuel calls page acc, get_offer_ids_loop fuel fetch calls page acc = None.
Proof.
  intros Hmore. induction fuel as [|fuel IH]; intros calls page acc; [done|].
  simpl. destruct (Hmore calls page) as (p & -> & ->). apply IH.
Qed.
End market_fetch.

(** X18. [get_offer_ids] of market.py on a catalogue served in pages: when
    each call carries the token of the page before it, every page but the
    last has a non-empty [nextPageToken] and the last has none or an empty
    one, the function returns the [shopSku] of all entries, in page order,
    after one call per page. *)
Theorem Market_get_offer_ids_pages (fetch : MarketApp.get_product_list)
    (pages : list MarketApp.mapping_page) (fuel : nat) :
  pages ≠ [] →
  (∀ i p, pages !! i = Some p → fetch i (market_cursor pages i) = inr p) →
  (∀ i p, pages !! i = Some p →
     MarketApp.falsy (MarketApp.nextPageToken p)
       = bool_decide (S i = length pages)) →
  (length pages ≤ fuel)%nat →
  MarketApp.get_offer_ids fuel fetch =
  Some (inr (MarketApp.shopSku <$>
               concat (MarketApp.offerMappingEntries <$> pages))).
Proof.
  intros Hne Hserved Htokens Hfuel. unfold MarketApp.get_offer_ids.
  pose proof (market_loop_pages fetch pages Hserved Htokens pages [] fuel
                eq_refl Hne Hfuel) as Hloop.
  simpl in Hloop. by rewrite Hloop.
Qed.

Lemma Market_get_offer_ids_pages_witness :
  MarketApp.get_offer_ids 2 (serve_mapping_pages two_mapping_pages) =
  Some (inr (MarketApp.shopSku <$>
               concat (MarketApp.offerMappingEntries <$> two_mapping_pages))).
Proof.
  apply (Market_get_offer_ids_pages (serve_mapping_pages two_mapping_pages)
           two_mapping_pages 2).
  - discriminate.
  - intros i p Hp. unfold serve_mapping_pages. by rewrite Hp.
  - intros i p Hp. destruct i as [|[|i]]; simpl in Hp; by simplify_eq.
  - simpl. lia.
Defined.

(** X19. [get_offer_ids] of market.py ends only on a page whose
    [nextPageToken] is missing or empty, or on an exception: against a remote
    side that answers every call with a page carrying a non-empty token the
    loop never ends, however many calls it is given. *)
Theorem Market_get_offer_ids_never_returns (fetch : MarketApp.get_product_list) :
  (∀ i page, ∃ p, fetch i page = inr p ∧
                  MarketApp.falsy (MarketApp.nextPageToken p) = false) →
  ∀ fuel, MarketApp.get_offer_ids fuel fetch = None.
Proof.
  intros Hmore fuel. unfold MarketApp.get_offer_ids.
  by rewrite (market_loop_endless fetch Hmore).
Qed.

Lemma Market_get_offer_ids_never_returns_witness :
  MarketApp.get_offer_ids 50
    (λ _ _, inr (MarketApp.MappingPage [MarketApp.MappingEntry "A1"] (Some "t")))
  = None.
Proof.
  apply Market_get_offer_ids_never_returns.
  intros i page. by eexists.
Defined.

(** * Rows that repeat a code *)

Lemma reconcile_stocks_app rows1 rows2 ids :
  reconcile_stocks (rows1 ++ rows2) ids =
  match reconcile_stocks rows1 ids with
  | (inl e, ids1) => (inl e, ids1)
  | (inr ps1, ids1) =>
      match reconcile_stocks rows2 ids1 with
      | (inl e, ids2) => (inl e, ids2)
      | (inr ps2, ids2) => (inr (ps1 ++ ps2), ids2)
      end
  end.
Proof.
  revert ids. induction rows1 as [|watch rows1 IH]; intros ids; simpl.
  - by destruct (reconcile_stocks rows2 ids) as [[e|ps2] ids2].
  - destruct (contains _ ids); [|apply IH].
    destruct (normalize_quantity _); [done|].
    destruct (remove _ ids) as [ids'|]; [|done]. rewrite IH.
    destruct (reconcile_stocks rows1 ids') as [[e|ps1] ids1]; [done|].
    by destruct (reconcile_stocks rows2 ids1) as [[e|ps2] ids2].
Qed.

Lemma reconcile_stocks_repeated rows1 watch rows2 ids :
  NoDup ids →
  code_of watch ∈ code_of <$> rows1 →
  reconcile_stocks (rows1 ++ watch :: rows2) ids =
  reconcile_stocks (rows1 ++ rows2) ids.
Proof.
  intros Hids Hrep. rewrite !reconcile_stocks_app.
  destruct (reconcile_stocks rows1 ids) as [[e|ps1] ids1] eqn:Hrec; [done|].
  simpl. assert (contains (code_of watch) ids1 = false) as ->; [|done].
  apply contains_false.
  rewrite (reconcile_stocks_residual _ _ _ _ Hids Hrec).
  rewrite list_elem_of_filter. tauto.
Qed.

(** X20. With distinct offer ids, an inventory row that repeats the code of an
    earlier row is ignored by [create_stocks]: the result and the offer-id
    list left behind are those of the inventory without that row, and the
    row's quantity is never read.  Both modules. *)
Theorem create_stocks_ignores_repeated_code (rows1 rows2 : list dict)
    (watch : dict) (ids : list string) :
  NoDup ids →
  code_of watch ∈ code_of <$> rows1 →
  ((run Seller.create_stocks (rows1 ++ watch :: rows2) ids).1
     = (run Seller.create_stocks (rows1 ++ rows2) ids).1 ∧
   offer_ids (run Seller.create_stocks (rows1 ++ watch :: rows2) ids).2
     = offer_ids (run Seller.create_stocks (rows1 ++ rows2) ids).2) ∧
  (∀ date warehouse_id,
     (run (Market.create_stocks date warehouse_id) (rows1 ++ watch :: rows2) ids).1
       = (run (Market.create_stocks date warehouse_id) (rows1 ++ rows2) ids).1 ∧
     offer_ids (run (Market.create_stocks date warehouse_id)
                  (rows1 ++ watch :: rows2) ids).2
       = offer_ids (run (Market.create_stocks date warehouse_id)
                      (rows1 ++ rows2) ids).2).
Proof.
  intros Hids Hrep. split; [|intros date warehouse_id].
  - rewrite !Seller_create_stocks_run, reconcile_stocks_repeated by done.
    by destruct (reconcile_stocks (rows1 ++ rows2) ids) as [[e|ps] ids'].
  - rewrite !Market_create_stocks_run, reconcile_stocks_repeated by done.
    cbv zeta.
    by destruct (reconcile_stocks (rows1 ++ rows2) ids) as [[e|ps] ids'].
Qed.

Lemma create_stocks_ignores_repeated_code_witness :
  (run Seller.create_stocks (plain_rows ++ unreadable_rows) ["A1"]).1
    = (run Seller.create_stocks (plain_rows ++ []) ["A1"]).1 ∧
  offer_ids (run Seller.create_stocks (plain_rows ++ unreadable_rows) ["A1"]).2
    = offer_ids (run Seller.create_stocks (plain_rows ++ []) ["A1"]).2.
Proof.
  apply (proj1 (create_stocks_ignores_repeated_code plain_rows []
                  (row (VStr "A1") (VStr "много") (VStr "10")) ["A1"]
                  ltac:(apply (bool_decide_unpack _); vm_compute; reflexivity)
                  ltac:(apply (bool_decide_unpack _); vm_compute; reflexivity))).
Defined.

(** * Quantity cells that are not strings *)



